(** * Tech Hub intern management: a shallow embedding of [main-task.py]

    The two classes of the program, [Attachee] and [TechHub], are embedded
    as two modules.  A method that mutates [self] and returns a message is a
    function from the state before the call to the message and the state
    after it.  Dictionaries are finite maps ([gmap]) keyed by task name,
    Python lists are lists.

    Numbers.  A score is any Python number; the ones [add_score] accepts are
    the finite numbers of the closed interval from 0 to 10, which are all
    rationals, so scores and averages are modelled in [Q] with exact
    arithmetic (the rounding of binary floating point is not modelled).

    Built-ins.  The program uses three built-ins of Python whose results
    depend on the run-time representation of their argument: [str.lower],
    the default formatting of a number inside an f-string and the
    [.1f] formatting.  They are the fields of the class [Builtins]; every
    result below holds for all instances. *)

From Stdlib Require Import QArith Qround Lqa.
From stdpp Require Import gmap strings list fin_maps pretty sorting.


Local Close Scope Q_scope.

(** ** Python built-ins used by the program *)

Class Builtins := {
  (** [s.lower()] *)
  str_lower : string → string;
  (** [f"{x}"] for a number [x] *)
  str_number : Q → string;
  (** [f"{x:.1f}"] *)
  format_1f : Q → string
}.

(** The line feed of the report strings. *)
Definition nl : string := String (Ascii.ascii_of_nat 10) EmptyString.

(** [sum(d.values())]: Python adds from 0, left to right. *)
Definition values {V : Type} (d : gmap string V) : list V := (map_to_list d).*2.

Definition sum (l : list Q) : Q := foldl Qplus (0 : Q) l.

(** [0 <= score <= 10] *)
Definition in_range (score : Q) : bool := Qle_bool 0 score && Qle_bool score 10.

(** ** class Attachee *)

Module Attachee.

Record t := mk {
  name : string;
  division : string;
  tasks : list string;
  feedback : gmap string string;
  scores : gmap string Q;
  average_score : Q
}.

(** Assignment to one attribute of [self]. *)
Definition set_tasks (self : t) (v : list string) : t :=
  mk (name self) (division self) v (feedback self) (scores self) (average_score self).
Definition set_feedback (self : t) (v : gmap string string) : t :=
  mk (name self) (division self) (tasks self) v (scores self) (average_score self).
Definition set_scores (self : t) (v : gmap string Q) : t :=
  mk (name self) (division self) (tasks self) (feedback self) v (average_score self).
Definition set_average_score (self : t) (v : Q) : t :=
  mk (name self) (division self) (tasks self) (feedback self) (scores self) v.

(** [__init__] *)
Definition init (name division : string) : t :=
  mk name division [] ∅ ∅ 0.

Definition assign_task (self : t) (task : string) : string * t :=
  let self := set_tasks self (tasks self ++ [task]) in
  let self := set_feedback self (<[task := EmptyString]> (feedback self)) in
  let self := set_scores self (<[task := (0 : Q)]> (scores self)) in
  ("Task '" +:+ task +:+ "' assigned to " +:+ name self +:+ " in "
     +:+ division self +:+ " division.", self).

Definition add_feedback (self : t) (task fb : string) : string * t :=
  if bool_decide (task ∈ tasks self) then
    let self := set_feedback self (<[task := fb]> (feedback self)) in
    ("Feedback added for " +:+ name self +:+ "'s task: '" +:+ task +:+ "'", self)
  else
    ("Error: Task '" +:+ task +:+ "' not assigned to " +:+ name self +:+ ".", self).

Definition _update_average_score (self : t) : t :=
  if bool_decide (scores self ≠ ∅) then
    set_average_score self
      (sum (values (scores self)) / inject_Z (Z.of_nat (size (scores self))))%Q
  else
    set_average_score self 0.

Section formatted.
Context `{Builtins}.

Definition add_score (self : t) (task : string) (score : Q) : string * t :=
  if bool_decide (task ∈ tasks self) then
    if in_range score then
      let self := set_scores self (<[task := score]> (scores self)) in
      let self := _update_average_score self in
      ("Score of " +:+ str_number score +:+ "/10 added for " +:+ name self
         +:+ "'s task: '" +:+ task +:+ "'", self)
    else
      ("Error: Score must be between 0 and 10.", self)
  else
    ("Error: Task '" +:+ task +:+ "' not assigned to " +:+ name self +:+ ".", self).

(** The body of the loop of [get_performance_summary]; [None] is the
    [KeyError] of [self.scores[task]] or [self.feedback[task]]. *)
Definition summary_of_task (self : t) (task : string) : option string :=
  match scores self !! task, feedback self !! task with
  | Some score, Some fb =>
      Some ("  - " +:+ task +:+ nl
            +:+ "    Score: " +:+ str_number score +:+ "/10" +:+ nl
            +:+ "    Feedback: "
            +:+ (if bool_decide (fb ≠ EmptyString) then fb else "No feedback yet")
            +:+ nl)
  | _, _ => None
  end.

Fixpoint summary_of_tasks (self : t) (l : list string) (summary : string)
  : option string :=
  match l with
  | [] => Some summary
  | task :: l =>
      match summary_of_task self task with
      | Some s => summary_of_tasks self l (summary +:+ s)
      | None => None
      end
  end.

Definition get_performance_summary (self : t) : option string :=
  let summary := nl +:+ "--- " +:+ name self +:+ "'s Performance Summary ("
                    +:+ division self +:+ " Division) ---" +:+ nl in
  if bool_decide (tasks self = []) then
    Some (summary +:+ "No tasks assigned yet." +:+ nl)
  else
    let summary := summary +:+ "Average Score: "
                     +:+ format_1f (average_score self) +:+ "/10" +:+ nl in
    let summary := summary +:+ "Tasks:" +:+ nl in
    summary_of_tasks self (tasks self) summary.

(** The calls a client can make on a record, and the state they leave.
    [get_performance_summary] only reads [self]. *)
Inductive op :=
  | AssignTask (task : string)
  | AddFeedback (task fb : string)
  | AddScore (task : string) (score : Q)
  | GetPerformanceSummary.

Definition exec (self : t) (o : op) : t :=
  match o with
  | AssignTask task => (assign_task self task).2
  | AddFeedback task fb => (add_feedback self task fb).2
  | AddScore task score => (add_score self task score).2
  | GetPerformanceSummary => let _ := get_performance_summary self in self
  end.

End formatted.

End Attachee.

(** ** class TechHub *)

Module TechHub.

Record t := mk {
  divisions : list string;
  attachees : list Attachee.t
}.

Definition set_attachees (self : t) (v : list Attachee.t) : t :=
  mk (divisions self) v.

(** [__init__] *)
Definition init : t :=
  mk ["Engineering"; "Tech Programs"; "Radio Support"; "Hub Support"] [].

Definition add_attachee (self : t) (name division : string) : string * t :=
  if bool_decide (division ∈ divisions self) then
    let attachee := Attachee.init name division in
    let self := set_attachees self (attachees self ++ [attachee]) in
    (name +:+ " added to " +:+ division +:+ " division.", self)
  else
    ("Error: " +:+ division +:+ " is not a valid division.", self).

Definition get_attachees_by_division (self : t) (division : string)
  : list Attachee.t :=
  if bool_decide (division ∈ divisions self) then
    filter (λ a, Attachee.division a = division) (attachees self)
  else
    [].

(** The list that [get_attachees_by_division] returns holds the very
    objects of [self.attachees], not copies: a method called on one of its
    elements mutates the record at the position that element has in
    [self.attachees].  [positions division l i] are those positions, counted
    from [i], in increasing order. *)
Fixpoint positions (division : string) (l : list Attachee.t) (i : nat) : list nat :=
  match l with
  | [] => []
  | a :: l =>
      if bool_decide (Attachee.division a = division)
      then i :: positions division l (S i)
      else positions division l (S i)
  end.

(** [attachee.assign_task(task)] for the object at position [i]; the
    message is dropped, as in the loop of [assign_task_by_division]. *)
Definition assign_task_at (task : string) (self : t) (i : nat) : t :=
  match attachees self !! i with
  | Some attachee =>
      set_attachees self (<[i := (Attachee.assign_task attachee task).2]> (attachees self))
  | None => self
  end.

Definition assign_task_by_division (self : t) (division task : string)
  : string * t :=
  if bool_decide (division ∈ divisions self) then
    let attachees := get_attachees_by_division self division in
    if bool_decide (attachees ≠ []) then
      let self := foldl (assign_task_at task) self
                        (positions division (TechHub.attachees self) 0) in
      ("Task '" +:+ task +:+ "' assigned to all attachees in " +:+ division
         +:+ " division.", self)
    else
      ("No attachees found in " +:+ division +:+ " division.", self)
  else
    ("Error: " +:+ division +:+ " is not a valid division.", self).

Section formatted.
Context `{Builtins}.

(** The loop of [get_attachee]: the first record of [l] whose lowered name
    is the lowered [name], [None] when the loop ends without one. *)
Fixpoint first_named (l : list Attachee.t) (name : string) : option Attachee.t :=
  match l with
  | [] => None
  | attachee :: l =>
      if bool_decide (str_lower (Attachee.name attachee) = str_lower name)
      then Some attachee
      else first_named l name
  end.

Definition get_attachee (self : t) (name : string) : option Attachee.t :=
  first_named (attachees self) name.

(** The loop of [display_division_performance]; [None] is a [KeyError]
    raised by a summary. *)
Fixpoint summaries (l : list Attachee.t) (result : string) : option string :=
  match l with
  | [] => Some result
  | attachee :: l =>
      match Attachee.get_performance_summary attachee with
      | Some s => summaries l (result +:+ s)
      | None => None
      end
  end.

Definition display_division_performance (self : t) (division : string)
  : option string :=
  if bool_decide (division ∈ divisions self) then
    let attachees := get_attachees_by_division self division in
    if bool_decide (attachees ≠ []) then
      let result := nl +:+ "=== " +:+ division +:+ " Division Performance ==="
                       +:+ nl in
      summaries attachees result
    else
      Some ("No attachees found in " +:+ division +:+ " division.")
  else
    Some ("Error: " +:+ division +:+ " is not a valid division.").

(** The inner loop of [display_all_attachees]: [enumerate(attachees, 1)],
    one line per record, numbered from [i] in decimal. *)
Fixpoint numbered_lines (l : list Attachee.t) (i : nat) (result : string) : string :=
  match l with
  | [] => result
  | attachee :: l =>
      numbered_lines l (S i)
        (result +:+ "  " +:+ pretty i +:+ ". " +:+ Attachee.name attachee
           +:+ " - Avg Score: " +:+ format_1f (Attachee.average_score attachee)
           +:+ "/10" +:+ nl)
  end.

(** The outer loop of [display_all_attachees], over [self.divisions]. *)
Fixpoint division_sections (self : t) (l : list string) (result : string) : string :=
  match l with
  | [] => result
  | division :: l =>
      let result := result +:+ nl +:+ division +:+ " Division:" +:+ nl in
      let attachees := get_attachees_by_division self division in
      let result :=
        if bool_decide (attachees ≠ []) then numbered_lines attachees 1 result
        else result +:+ "  No attachees in this division." +:+ nl in
      division_sections self l result
  end.

Definition display_all_attachees (self : t) : string :=
  let result := nl +:+ "=== All Attachees by Division ===" +:+ nl in
  division_sections self (divisions self) result.

(** The calls a client can make on a hub: the two mutating methods, and a
    method of a record the client holds (from [get_attachee] or
    [get_attachees_by_division]), which is the object at some position of
    [self.attachees]. *)
Inductive op :=
  | AddAttachee (name division : string)
  | AssignTaskByDivision (division task : string)
  | OnAttachee (i : nat) (o : Attachee.op).

Definition exec (self : t) (o : op) : t :=
  match o with
  | AddAttachee name division => (add_attachee self name division).2
  | AssignTaskByDivision division task =>
      (assign_task_by_division self division task).2
  | OnAttachee i o =>
      match attachees self !! i with
      | Some attachee =>
          set_attachees self (<[i := Attachee.exec attachee o]> (attachees self))
      | None => self
      end
  end.

End formatted.

End TechHub.

(** ** An instance of the built-ins

    For names in ASCII and numbers that are Python ints or fractions; it
    serves to run the definitions on concrete inputs. *)

Definition lower_ascii (c : Ascii.ascii) : Ascii.ascii :=
  let n := Ascii.nat_of_ascii c in
  if (65 <=? n)%nat && (n <=? 90)%nat then Ascii.ascii_of_nat (n + 32) else c.

Fixpoint lower (s : string) : string :=
  match s with
  | EmptyString => EmptyString
  | String c s => String (lower_ascii c) (lower s)
  end.

Definition str_fraction (q : Q) : string :=
  let q := Qred q in
  if bool_decide (Qden q = 1%positive) then pretty (Qnum q)
  else pretty (Qnum q) +:+ "/" +:+ pretty (Zpos (Qden q)).

(** One decimal, the exact value rounded half to even. *)
Definition one_decimal (q : Q) : string :=
  let q10 := (q * 10)%Q in
  let lo := Qfloor q10 in
  let r := (q10 - inject_Z lo)%Q in
  let n := if Qle_bool r (1 # 2) && negb (Qeq_bool r (1 # 2) && Z.odd lo)
           then lo else (lo + 1)%Z in
  (if bool_decide (n < 0)%Z then "-" else EmptyString)
    +:+ pretty (Z.abs n / 10)%Z +:+ "." +:+ pretty (Z.abs n mod 10)%Z.

Definition ascii_builtins : Builtins :=
  {| str_lower := lower; str_number := str_fraction; format_1f := one_decimal |}.

(** ** Sample states

    John Smith of Engineering with the task "Fix bug", before and after the
    score 8. *)

Definition john : Attachee.t :=
  (Attachee.assign_task (Attachee.init "John Smith" "Engineering") "Fix bug").2.

Definition john_scored : Attachee.t :=
  (@Attachee.add_score ascii_builtins john "Fix bug" 8).2.

(** A hub with John Smith in Engineering, as [add_attachee] makes it. *)
Definition hub_john : TechHub.t :=
  (TechHub.add_attachee TechHub.init "John Smith" "Engineering").2.

(** ** Assigning and then scoring

    The calls of the average-score law on a record [a]: [assign_task] for
    the task of each pair of [assigned], in order, then [add_score] for each
    pair of [scored], in order. *)

Definition assign_then_score `{Builtins}
    (a : Attachee.t) (assigned scored : list (string * Q)) : Attachee.t :=
  foldl Attachee.exec a
    ((Attachee.AssignTask ∘ fst <$> assigned)
       ++ (uncurry Attachee.AddScore <$> scored)).

(** ** Reading messages *)

(** [contains v msg]: the text [v] occurs in [msg]. *)
Fixpoint contains (v msg : string) : bool :=
  String.prefix v msg ||
  match msg with
  | EmptyString => false
  | String _ msg => contains v msg
  end.

(** The failure messages of the program start with this word. *)
Definition is_error (msg : string) : bool := String.prefix "Error: " msg.

(** The invariant of a record: each assigned task has its two entries. *)
Definition has_entries (a : Attachee.t) : Prop :=
  ∀ task, task ∈ Attachee.tasks a →
    is_Some (Attachee.feedback a !! task) ∧ is_Some (Attachee.scores a !! task).

(** [mean l], the arithmetic mean of the spec: the sum over the count. *)
Definition mean (l : list Q) : Q :=
  (foldr Qplus 0 l / inject_Z (Z.of_nat (length l)))%Q.

(** The mean of the values a [scores] dictionary holds now. *)
Definition mean_of_scores (d : gmap string Q) : Q := mean (values d).

(** ** Invariants of reachable states *)

(** The keys of both dictionaries are the assigned tasks, no more. *)
Definition keys_are_tasks (a : Attachee.t) : Prop :=
  dom (Attachee.feedback a) = list_to_set (Attachee.tasks a)
  ∧ dom (Attachee.scores a) = list_to_set (Attachee.tasks a).

(** Every stored score and the average lie between 0 and 10. *)
Definition scores_bounded (a : Attachee.t) : Prop :=
  (∀ task score, Attachee.scores a !! task = Some score → (0 <= score ∧ score <= 10)%Q)
  ∧ (0 <= Attachee.average_score a ∧ Attachee.average_score a <= 10)%Q.

(** What [add_attachee] and the methods of a record maintain in a hub. *)
Definition hub_ok (h : TechHub.t) : Prop :=
  TechHub.divisions h
    = ["Engineering"; "Tech Programs"; "Radio Support"; "Hub Support"]
  ∧ ∀ a, a ∈ TechHub.attachees h →
         Attachee.division a ∈ TechHub.divisions h ∧ has_entries a.

(** What [assign_task_by_division] does to one record of the hub: the
    task is assigned when the division is valid and is the record's. *)
Definition bulk_assigned (h : TechHub.t) (division task : string)
    (a : Attachee.t) : Attachee.t :=
  if decide (Attachee.division a = division ∧ division ∈ TechHub.divisions h)
  then (Attachee.assign_task a task).2 else a.

(** * Properties *)

Ltac by_compute := apply (bool_decide_unpack _); vm_compute; exact I.

Section strings.

Lemma append_assoc (s1 s2 s3 : string) : (s1 +:+ s2) +:+ s3 = s1 +:+ s2 +:+ s3.
Proof.
  induction s1 as [|c s1 IH]; [done |].
  change (String c ((s1 +:+ s2) +:+ s3) = String c (s1 +:+ s2 +:+ s3)).
  by rewrite IH.
Qed.

Lemma prefix_app (v post : string) : String.prefix v (v +:+ post) = true.
Proof.
  induction v as [|c v IH]; simpl.
  - by destruct post.
  - destruct (Ascii.ascii_dec c c); [done | congruence].
Qed.

Lemma prefix_inv (v msg : string) :
  String.prefix v msg = true → ∃ post, msg = v +:+ post.
Proof.
  revert msg. induction v as [|c v IH]; intros msg Hp.
  - by exists msg.
  - destruct msg as [|c' msg]; simpl in Hp; [done |].
    destruct (Ascii.ascii_dec c c') as [->|]; [| done].
    destruct (IH _ Hp) as [post ->]. by exists post.
Qed.

Lemma contains_cons (v : string) (c : Ascii.ascii) (msg : string) :
  contains v (String c msg) = String.prefix v (String c msg) || contains v msg.
Proof. done. Qed.

Lemma contains_spec (v msg : string) :
  contains v msg = true ↔ ∃ pre post, msg = pre +:+ v +:+ post.
Proof.
  split.
  - induction msg as [|c msg IH].
    + destruct v; [| done]. by exists EmptyString, EmptyString.
    + rewrite contains_cons. intros [Hp|Hc]%orb_true_iff.
      * apply prefix_inv in Hp as [post ->]. by exists EmptyString, post.
      * destruct (IH Hc) as (pre & post & ->). by exists (String c pre), post.
  - intros (pre & post & ->). induction pre as [|c pre IH].
    + change (EmptyString +:+ v +:+ post) with (v +:+ post).
      destruct (v +:+ post) eqn:E.
      * by destruct v.
      * by rewrite contains_cons, <- E, prefix_app.
    + change (String c pre +:+ v +:+ post) with (String c (pre +:+ v +:+ post)).
      rewrite contains_cons, IH. apply orb_true_r.
Qed.

Lemma contains_app_r (v pre msg : string) :
  contains v msg = true → contains v (pre +:+ msg) = true.
Proof.
  rewrite !contains_spec. intros (p & q & ->). exists (pre +:+ p), q.
  by rewrite append_assoc.
Qed.

Lemma contains_app_l (v msg post : string) :
  contains v msg = true → contains v (msg +:+ post) = true.
Proof.
  rewrite !contains_spec. intros (p & q & ->). exists p, (q +:+ post).
  by rewrite !append_assoc.
Qed.

Lemma contains_here (v post : string) : contains v (v +:+ post) = true.
Proof. apply contains_spec. by exists EmptyString, post. Qed.

End strings.

(** ** Records *)

Section attachee.
Context `{Builtins}.

Lemma in_range_spec (score : Q) :
  in_range score = true ↔ (0 <= score ∧ score <= 10)%Q.
Proof.
  unfold in_range. rewrite andb_true_iff, !Qle_bool_iff. done.
Qed.

Lemma assign_task_state (a : Attachee.t) (task : string) :
  (Attachee.assign_task a task).2 =
    Attachee.mk (Attachee.name a) (Attachee.division a)
      (Attachee.tasks a ++ [task])
      (<[task := EmptyString]> (Attachee.feedback a))
      (<[task := (0 : Q)]> (Attachee.scores a))
      (Attachee.average_score a).
Proof. done. Qed.

Lemma add_score_unassigned (a : Attachee.t) (task : string) (score : Q) :
  task ∉ Attachee.tasks a →
  Attachee.add_score a task score =
    ("Error: Task '" +:+ task +:+ "' not assigned to " +:+ Attachee.name a +:+ ".", a).
Proof. intros Hn. unfold Attachee.add_score. by rewrite bool_decide_eq_false_2. Qed.

Lemma add_score_rejected (a : Attachee.t) (task : string) (score : Q) :
  task ∈ Attachee.tasks a → in_range score = false →
  Attachee.add_score a task score = ("Error: Score must be between 0 and 10.", a).
Proof.
  intros Hin Hr. unfold Attachee.add_score.
  by rewrite bool_decide_eq_true_2, Hr.
Qed.

Lemma update_average_score_fields (a : Attachee.t) :
  let a' := Attachee._update_average_score a in
  Attachee.name a' = Attachee.name a ∧ Attachee.division a' = Attachee.division a ∧
  Attachee.tasks a' = Attachee.tasks a ∧ Attachee.feedback a' = Attachee.feedback a ∧
  Attachee.scores a' = Attachee.scores a.
Proof. cbv zeta. unfold Attachee._update_average_score. by case_bool_decide. Qed.

Lemma add_score_accepted (a : Attachee.t) (task : string) (score : Q) :
  task ∈ Attachee.tasks a → in_range score = true →
  Attachee.add_score a task score =
    ("Score of " +:+ str_number score +:+ "/10 added for " +:+ Attachee.name a
       +:+ "'s task: '" +:+ task +:+ "'",
     Attachee._update_average_score
       (Attachee.set_scores a (<[task := score]> (Attachee.scores a)))).
Proof.
  intros Hin Hr. unfold Attachee.add_score.
  rewrite bool_decide_eq_true_2, Hr by done. cbv zeta.
  by destruct (update_average_score_fields
                 (Attachee.set_scores a (<[task := score]> (Attachee.scores a))))
    as (-> & _).
Qed.

(** An operation changes neither the name nor the division, drops no task
    and no dictionary key. *)
Lemma exec_frame (a : Attachee.t) (o : Attachee.op) :
  let a' := Attachee.exec a o in
  Attachee.name a' = Attachee.name a ∧ Attachee.division a' = Attachee.division a.
Proof.
  cbv zeta. destruct o as [task|task fb|task score|]; simpl; [done | | | done].
  - unfold Attachee.add_feedback. by case_bool_decide.
  - unfold Attachee.add_score. case_bool_decide; [| done].
    destruct (in_range score); [| done]. simpl.
    by destruct (update_average_score_fields
                   (Attachee.set_scores a (<[task := score]> (Attachee.scores a))))
      as (-> & -> & _).
Qed.

Lemma has_entries_init (name division : string) :
  has_entries (Attachee.init name division).
Proof. intros task Hin. simpl in Hin. by apply elem_of_nil in Hin. Qed.

Lemma has_entries_assign_task (a : Attachee.t) (task : string) :
  has_entries a → has_entries (Attachee.assign_task a task).2.
Proof.
  intros Ha t. rewrite assign_task_state. simpl.
  intros [Hin| ->%list_elem_of_singleton]%elem_of_app.
  - destruct (Ha t Hin) as [Hf Hs]. split.
    + rewrite lookup_insert. case_decide; [by eexists | done].
    + rewrite lookup_insert. case_decide; [by eexists | done].
  - rewrite !lookup_insert_eq. split; by eexists.
Qed.

Lemma has_entries_add_feedback (a : Attachee.t) (task fb : string) :
  has_entries a → has_entries (Attachee.add_feedback a task fb).2.
Proof.
  intros Ha. unfold Attachee.add_feedback. case_bool_decide; [| done].
  intros t Hin. simpl in *. destruct (Ha t Hin) as [Hf Hs]. split; [| done].
  rewrite lookup_insert. case_decide; [by eexists | done].
Qed.

Lemma has_entries_add_score (a : Attachee.t) (task : string) (score : Q) :
  has_entries a → has_entries (Attachee.add_score a task score).2.
Proof.
  intros Ha. unfold Attachee.add_score. case_bool_decide; [| done].
  destruct (in_range score); [| done]. simpl.
  intros t.
  destruct (update_average_score_fields
              (Attachee.set_scores a (<[task := score]> (Attachee.scores a))))
    as (_ & _ & -> & -> & ->). simpl.
  intros Hin. destruct (Ha t Hin) as [Hf Hs]. split; [done |].
  rewrite lookup_insert. case_decide; [by eexists | done].
Qed.

Lemma has_entries_exec (a : Attachee.t) (o : Attachee.op) :
  has_entries a → has_entries (Attachee.exec a o).
Proof.
  intros Ha. destruct o as [task|task fb|task score|]; simpl.
  - by apply has_entries_assign_task.
  - by apply has_entries_add_feedback.
  - by apply has_entries_add_score.
  - done.
Qed.

Lemma has_entries_reachable (name division : string) (ops : list Attachee.op) :
  has_entries (foldl Attachee.exec (Attachee.init name division) ops).
Proof.
  induction ops as [|o ops IH] using rev_ind.
  - apply has_entries_init.
  - rewrite foldl_app. simpl. by apply has_entries_exec.
Qed.

(** With the invariant the report never fails on a missing key. *)
Lemma summary_of_tasks_total (a : Attachee.t) (l : list string) (summary : string) :
  (∀ task, task ∈ l → task ∈ Attachee.tasks a) → has_entries a →
  is_Some (Attachee.summary_of_tasks a l summary).
Proof.
  intros Hl Ha. revert summary. induction l as [|task l IH]; intros summary.
  - by eexists.
  - simpl. unfold Attachee.summary_of_task.
    destruct (Ha task) as [[fb ->] [score ->]]; [apply Hl; left |].
    apply IH. intros t Ht. apply Hl. by right.
Qed.

Lemma get_performance_summary_total (a : Attachee.t) :
  has_entries a → is_Some (Attachee.get_performance_summary a).
Proof.
  intros Ha. unfold Attachee.get_performance_summary.
  case_bool_decide; [by eexists |]. by apply summary_of_tasks_total.
Qed.

End attachee.

Section attachee_claims.
Context `{Builtins}.

(** C10: [assign_task] never touches [average_score].  It appends the task
    to [tasks], sets [feedback[task]] to the empty string and
    [scores[task]] to 0, and recomputes nothing.  In particular there is a
    reachable record and a task with a nonzero score for which the call
    resets the score to 0, keeps the average, and leaves an average that is
    not the mean of the scores the record now holds. *)
Theorem assign_task_keeps_average_score :
  (∀ (a : Attachee.t) (task : string),
     let a' := (Attachee.assign_task a task).2 in
     Attachee.average_score a' = Attachee.average_score a
     ∧ Attachee.tasks a' = Attachee.tasks a ++ [task]
     ∧ Attachee.feedback a' = <[task := EmptyString]> (Attachee.feedback a)
     ∧ Attachee.scores a' = <[task := (0 : Q)]> (Attachee.scores a)
     ∧ Attachee.name a' = Attachee.name a
     ∧ Attachee.division a' = Attachee.division a)
  ∧ (∃ (ops : list Attachee.op) (task : string) (score : Q),
       let a := foldl Attachee.exec (Attachee.init "John Smith" "Engineering") ops in
       let a' := (Attachee.assign_task a task).2 in
       Attachee.scores a !! task = Some score ∧ ¬ (score == 0)%Q
       ∧ (Attachee.average_score a == mean_of_scores (Attachee.scores a))%Q
       ∧ Attachee.scores a' !! task = Some (0 : Q)
       ∧ Attachee.average_score a' = Attachee.average_score a
       ∧ ¬ (Attachee.average_score a' == mean_of_scores (Attachee.scores a'))%Q).
Proof.
  split; [done |].
  exists [Attachee.AssignTask "Fix bug"; Attachee.AddScore "Fix bug" 8], "Fix bug", (8 : Q).
  cbv zeta. repeat split; try by vm_compute.
Qed.

(** C2: for a task of the record's [tasks] list, [add_score] succeeds
    exactly when the score lies between 0 and 10; it then stores the score.
    Out of range it returns the range error message and the record is the
    one it was, so [scores[task]], [average_score] and everything else are
    unchanged. *)
Theorem add_score_succeeds_iff_in_range
    (a : Attachee.t) (task : string) (score : Q) :
  task ∈ Attachee.tasks a →
  (is_error (Attachee.add_score a task score).1 = false
     ↔ (0 <= score ∧ score <= 10)%Q)
  ∧ ((0 <= score ∧ score <= 10)%Q →
       Attachee.scores (Attachee.add_score a task score).2 !! task = Some score)
  ∧ (¬ (0 <= score ∧ score <= 10)%Q →
       Attachee.add_score a task score
         = ("Error: Score must be between 0 and 10.", a)).
Proof.
  intros Hin. rewrite <- in_range_spec.
  destruct (in_range score) eqn:Hr.
  - rewrite add_score_accepted by done. simpl.
    destruct (update_average_score_fields
                (Attachee.set_scores a (<[task := score]> (Attachee.scores a))))
      as (_ & _ & _ & _ & ->). simpl.
    split_and!; [done | by rewrite lookup_insert_eq | done].
  - rewrite add_score_rejected by done. simpl. split_and!; [| done | done].
    split; [by vm_compute | done].
Qed.

(** C3: in every state a record can reach, each task of [tasks] has a key
    in [feedback] and in [scores].  [assign_task] puts the task and its two
    keys in place, and every operation on the record ([assign_task],
    [add_feedback], [add_score], [get_performance_summary]) keeps the
    invariant. *)
Theorem tasks_have_entries :
  (∀ (name division : string) (ops : list Attachee.op),
     has_entries (foldl Attachee.exec (Attachee.init name division) ops))
  ∧ (∀ (a : Attachee.t) (task : string),
       let a' := (Attachee.assign_task a task).2 in
       task ∈ Attachee.tasks a'
       ∧ is_Some (Attachee.feedback a' !! task)
       ∧ is_Some (Attachee.scores a' !! task))
  ∧ (∀ (a : Attachee.t) (o : Attachee.op),
       has_entries a → has_entries (Attachee.exec a o)).
Proof.
  split_and!.
  - apply has_entries_reachable.
  - intros a task. rewrite assign_task_state. simpl. split_and!.
    + apply elem_of_app. right. by apply list_elem_of_singleton.
    + rewrite lookup_insert_eq. by eexists.
    + rewrite lookup_insert_eq. by eexists.
  - apply has_entries_exec.
Qed.

End attachee_claims.

Lemma add_score_succeeds_iff_in_range_witness :
  "Fix bug" ∈ Attachee.tasks john_scored
  ∧ @Attachee.add_score ascii_builtins john_scored "Fix bug" 12
      = ("Error: Score must be between 0 and 10.", john_scored).
Proof.
  assert (Hin : "Fix bug" ∈ Attachee.tasks john_scored) by by_compute.
  split; [exact Hin |].
  apply (@add_score_succeeds_iff_in_range ascii_builtins john_scored "Fix bug" 12 Hin).
  intros [_ Hle]. by apply Hle.
Defined.

Lemma tasks_have_entries_witness :
  has_entries john
  ∧ has_entries (@Attachee.exec ascii_builtins john (Attachee.AddScore "Fix bug" 8)).
Proof.
  assert (Hj : has_entries john).
  { apply (proj1 (@tasks_have_entries ascii_builtins)
             "John Smith" "Engineering" [Attachee.AssignTask "Fix bug"]). }
  split; [exact Hj |].
  exact (proj2 (proj2 (@tasks_have_entries ascii_builtins)) john _ Hj).
Defined.

(** ** The average-score law *)

Section sums.

Lemma foldl_Qplus (acc : Q) (l : list Q) :
  (foldl Qplus acc l == acc + foldr Qplus 0 l)%Q.
Proof.
  revert acc. induction l as [|x l IH]; intros acc; simpl.
  - ring.
  - rewrite IH. ring.
Qed.

Lemma sum_foldr (l : list Q) : (sum l == foldr Qplus 0 l)%Q.
Proof. unfold sum. rewrite foldl_Qplus. ring. Qed.

Lemma foldr_Qplus_perm (l l' : list Q) :
  l ≡ₚ l' → (foldr Qplus 0 l == foldr Qplus 0 l')%Q.
Proof.
  induction 1 as [|x l l' _ IH|x y l|l l' l'' _ IH1 _ IH2]; simpl.
  - reflexivity.
  - by rewrite IH.
  - ring.
  - by rewrite IH1.
Qed.

(** The dictionary after a run of [scores[task] = score] assignments. *)
Lemma foldl_insert_notin (m : gmap string Q) (qs : list (string * Q)) (t : string) :
  t ∉ qs.*1 → foldl (λ m p, <[p.1 := p.2]> m) m qs !! t = m !! t.
Proof.
  revert m. induction qs as [|[t' s'] qs IH]; intros m Hn; [done |].
  simpl in *. apply not_elem_of_cons in Hn as [Hne Hn].
  rewrite IH by done. by rewrite lookup_insert_ne.
Qed.

Lemma foldl_insert_in (m : gmap string Q) (qs : list (string * Q)) (t : string) (s : Q) :
  NoDup qs.*1 → (t, s) ∈ qs →
  foldl (λ m p, <[p.1 := p.2]> m) m qs !! t = Some s.
Proof.
  revert m. induction qs as [|[t' s'] qs IH]; intros m Hnd Hin.
  - by apply elem_of_nil in Hin.
  - simpl in *. apply NoDup_cons in Hnd as [Hn Hnd].
    apply elem_of_cons in Hin as [[= -> ->]|Hin].
    + rewrite foldl_insert_notin by done. apply lookup_insert_eq.
    + by apply IH.
Qed.

Lemma foldl_insert_list_to_map (m : gmap string Q) (qs : list (string * Q)) :
  NoDup qs.*1 → (∀ t, is_Some (m !! t) → t ∈ qs.*1) →
  foldl (λ m p, <[p.1 := p.2]> m) m qs = list_to_map qs.
Proof.
  intros Hnd Hdom. apply map_eq. intros t.
  destruct (list_to_map qs !! t) as [s|] eqn:E.
  - apply elem_of_list_to_map in E; [| done]. by apply foldl_insert_in.
  - apply not_elem_of_list_to_map in E.
    rewrite foldl_insert_notin by done.
    destruct (m !! t) eqn:Em; [| done].
    destruct E. apply Hdom. by eexists.
Qed.

End sums.

Section assigned_then_scored.
Context `{Builtins}.

Lemma exec_assign_tasks (a : Attachee.t) (ps : list (string * Q)) :
  let b := foldl Attachee.exec a (Attachee.AssignTask ∘ fst <$> ps) in
  Attachee.tasks b = Attachee.tasks a ++ ps.*1
  ∧ ∀ t, is_Some (Attachee.scores b !! t) →
         is_Some (Attachee.scores a !! t) ∨ t ∈ ps.*1.
Proof.
  cbv zeta. revert a. induction ps as [|[t s] ps IH]; intros a.
  - simpl. rewrite app_nil_r. auto.
  - change (foldl Attachee.exec a (Attachee.AssignTask ∘ fst <$> (t, s) :: ps))
      with (foldl Attachee.exec (Attachee.assign_task a t).2
              (Attachee.AssignTask ∘ fst <$> ps)).
    destruct (IH (Attachee.assign_task a t).2) as [-> Hdom].
    rewrite assign_task_state in *. simpl in *. split.
    + by rewrite <- app_assoc.
    + intros t' Hs. destruct (Hdom t' Hs) as [Ht|Ht]; [| by right; right].
      rewrite lookup_insert in Ht. case_decide; [subst; right; left | by left].
Qed.

Lemma exec_add_scores (b : Attachee.t) (qs : list (string * Q)) :
  (∀ p, p ∈ qs → p.1 ∈ Attachee.tasks b ∧ in_range p.2 = true) →
  let c := foldl Attachee.exec b (uncurry Attachee.AddScore <$> qs) in
  Attachee.tasks c = Attachee.tasks b
  ∧ Attachee.scores c = foldl (λ m p, <[p.1 := p.2]> m) (Attachee.scores b) qs
  ∧ (qs ≠ [] →
     Attachee.average_score c
       = (sum (values (Attachee.scores c))
            / inject_Z (Z.of_nat (size (Attachee.scores c))))%Q).
Proof.
  cbv zeta. induction qs as [|[t s] qs IH] using rev_ind; intros Hqs.
  - done.
  - rewrite fmap_app, !foldl_app. simpl.
    destruct IH as (Ht & Hs & _).
    { intros p Hp. apply Hqs, elem_of_app. by left. }
    destruct (Hqs (t, s)) as [Hin Hr].
    { apply elem_of_app. right. by left. }
    simpl in Hin, Hr. rewrite add_score_accepted; [| by rewrite Ht | done].
    unfold Attachee._update_average_score. simpl.
    rewrite bool_decide_eq_true_2 by apply insert_non_empty.
    simpl. rewrite Hs. split_and!; done.
Qed.

(** C1, amended: on a record that holds no score for a task outside
    t1..tk (a new record holds none at all), with k at least 1 and the
    names distinct, assigning t1..tk and then scoring each task once, in
    any order, with values between 0 and 10 leaves [average_score] equal
    to the mean of the values. *)
Theorem average_score_law (a : Attachee.t) (ps qs : list (string * Q)) :
  ps ≠ [] →
  NoDup ps.*1 →
  (∀ p, p ∈ ps → (0 <= p.2 ∧ p.2 <= 10)%Q) →
  (∀ t, is_Some (Attachee.scores a !! t) → t ∈ ps.*1) →
  qs ≡ₚ ps →
  (Attachee.average_score (assign_then_score a ps qs) == mean ps.*2)%Q.
Proof.
  intros Hne Hnd Hrange Hdom Hperm. unfold assign_then_score.
  rewrite foldl_app.
  destruct (exec_assign_tasks a ps) as [Htasks Hscores].
  set (b := foldl Attachee.exec a (Attachee.AssignTask ∘ fst <$> ps)) in *.
  destruct (exec_add_scores b qs) as (_ & Hs & Havg).
  { intros p Hp. rewrite Hperm in Hp. split.
    - rewrite Htasks. apply elem_of_app. right. by apply list_elem_of_fmap_2.
    - by apply in_range_spec, Hrange. }
  assert (Hndq : NoDup qs.*1) by by rewrite Hperm.
  rewrite Havg, Hs.
  2:{ intros ->. apply Permutation_nil_l in Hperm. by subst. }
  rewrite foldl_insert_list_to_map; [| done |].
  2:{ intros t Ht. rewrite Hperm. destruct (Hscores t Ht); auto. }
  rewrite map_size_list_to_map by done.
  rewrite sum_foldr. unfold mean, values.
  rewrite (foldr_Qplus_perm _ (ps.*2)).
  2:{ by rewrite map_to_list_to_map, Hperm. }
  by rewrite length_fmap, Hperm.
Qed.

End assigned_then_scored.

Lemma average_score_law_witness :
  [("Fix bug", 8 : Q); ("Write docs", 5 : Q)] ≠ []
  ∧ NoDup [("Fix bug", 8 : Q); ("Write docs", 5 : Q)].*1
  ∧ [("Write docs", 5 : Q); ("Fix bug", 8 : Q)]
      ≡ₚ [("Fix bug", 8 : Q); ("Write docs", 5 : Q)]
  ∧ (Attachee.average_score
       (@assign_then_score ascii_builtins
          (Attachee.init "John Smith" "Engineering")
          [("Fix bug", 8 : Q); ("Write docs", 5 : Q)]
          [("Write docs", 5 : Q); ("Fix bug", 8 : Q)])
     == mean [8 : Q; 5 : Q])%Q.
Proof.
  assert (Hnd : NoDup [("Fix bug", 8 : Q); ("Write docs", 5 : Q)].*1) by by_compute.
  assert (Hp : [("Write docs", 5 : Q); ("Fix bug", 8 : Q)]
                 ≡ₚ [("Fix bug", 8 : Q); ("Write docs", 5 : Q)]) by apply perm_swap.
  split_and!; [done | exact Hnd | exact Hp |].
  apply (@average_score_law ascii_builtins
           (Attachee.init "John Smith" "Engineering")
           [("Fix bug", 8 : Q); ("Write docs", 5 : Q)]
           [("Write docs", 5 : Q); ("Fix bug", 8 : Q)]); [done | exact Hnd | | | exact Hp].
  - intros p [->|[->|[]%elem_of_nil]%elem_of_cons]%elem_of_cons; by vm_compute.
  - intros t [x Hx]. simpl in Hx. by rewrite lookup_empty in Hx.
Defined.

(** C1 as stated fails on a record that already holds a score: John has 8
    for "Fix bug"; assigning "Write docs" and scoring it 4 leaves the
    average 6, the mean over both tasks, not 4. *)
Lemma average_score_law_counterexample :
  NoDup [("Write docs", 4 : Q)].*1
  ∧ (0 <= 4 ∧ 4 <= 10)%Q
  ∧ (Attachee.average_score
       (@assign_then_score ascii_builtins john_scored
          [("Write docs", 4 : Q)] [("Write docs", 4 : Q)]) == 6)%Q
  ∧ ¬ (Attachee.average_score
         (@assign_then_score ascii_builtins john_scored
            [("Write docs", 4 : Q)] [("Write docs", 4 : Q)])
       == mean [4 : Q])%Q.
Proof.
  split_and!; first [by_compute | by vm_compute].
Qed.

(** ** The hub *)

Section hub.
Context `{Builtins}.

Lemma add_attachee_valid (h : TechHub.t) (name division : string) :
  division ∈ TechHub.divisions h →
  TechHub.add_attachee h name division =
    (name +:+ " added to " +:+ division +:+ " division.",
     TechHub.mk (TechHub.divisions h)
       (TechHub.attachees h ++ [Attachee.mk name division [] ∅ ∅ 0])).
Proof. intros Hd. unfold TechHub.add_attachee. by rewrite bool_decide_eq_true_2. Qed.

Lemma add_attachee_invalid (h : TechHub.t) (name division : string) :
  division ∉ TechHub.divisions h →
  TechHub.add_attachee h name division =
    ("Error: " +:+ division +:+ " is not a valid division.", h).
Proof. intros Hd. unfold TechHub.add_attachee. by rewrite bool_decide_eq_false_2. Qed.

Lemma first_named_app (l1 l2 : list Attachee.t) (name : string) :
  TechHub.first_named (l1 ++ l2) name =
    match TechHub.first_named l1 name with
    | Some a => Some a
    | None => TechHub.first_named l2 name
    end.
Proof.
  induction l1 as [|a l1 IH]; simpl; [done |]. by case_bool_decide.
Qed.

Lemma first_named_None (l : list Attachee.t) (name : string) :
  TechHub.first_named l name = None ↔
  ∀ b, b ∈ l → str_lower (Attachee.name b) ≠ str_lower name.
Proof.
  induction l as [|a l IH]; simpl.
  - split; [| done]. intros _ b Hb. by apply elem_of_nil in Hb.
  - case_bool_decide as Ha.
    + split; [done |]. intros Hall. destruct (Hall a); [by left | done].
    + rewrite IH. split.
      * intros Hall b [->|Hb]%elem_of_cons; auto.
      * intros Hall b Hb. apply Hall. by right.
Qed.

Lemma first_named_Some (l : list Attachee.t) (name : string) (a : Attachee.t) :
  TechHub.first_named l name = Some a ↔
  ∃ l1 l2, l = l1 ++ a :: l2
    ∧ str_lower (Attachee.name a) = str_lower name
    ∧ ∀ b, b ∈ l1 → str_lower (Attachee.name b) ≠ str_lower name.
Proof.
  split.
  - induction l as [|a' l IH]; simpl; [done |].
    case_bool_decide as Ha.
    + intros [= ->]. exists [], l. split_and!; [done | done |].
      intros b Hb. by apply elem_of_nil in Hb.
    + intros (l1 & l2 & -> & Hn & Hall)%IH. exists (a' :: l1), l2.
      split_and!; [done | done |].
      intros b [->|Hb]%elem_of_cons; auto.
  - intros (l1 & l2 & -> & Hn & Hall). rewrite first_named_app.
    apply first_named_None in Hall as ->. simpl.
    by rewrite bool_decide_eq_true_2.
Qed.

(** The positions are those of the records of the division, in increasing
    order, and reading [attachees] there gives the filtered list. *)
Lemma positions_spec (division : string) (l : list Attachee.t) (i n : nat) :
  n ∈ TechHub.positions division l i ↔
  ∃ a, i ≤ n ∧ l !! (n - i) = Some a ∧ Attachee.division a = division.
Proof.
  revert i. induction l as [|a l IH]; intros i; simpl.
  - split; [by intros ?%elem_of_nil | by intros (a & _ & ? & _)].
  - assert (Hrec : n ∈ TechHub.positions division l (S i) ↔
                   ∃ b, S i ≤ n ∧ (a :: l) !! (n - i) = Some b
                        ∧ Attachee.division b = division).
    { rewrite IH. split; intros (b & Hle & Hl & Hd); exists b;
        (split_and!; [lia | | done]).
      - by replace (n - i) with (S (n - S i)) by lia.
      - by replace (n - i) with (S (n - S i)) in Hl by lia. }
    case_bool_decide as Ha.
    + rewrite elem_of_cons, Hrec. split.
      * intros [->|(b & Hle & Hl & Hd)].
        -- exists a. rewrite Nat.sub_diag. done.
        -- exists b. split_and!; [lia | done | done].
      * intros (b & Hle & Hl & Hd). destruct (decide (n = i)) as [->|Hne]; [by left |].
        right. exists b. split_and!; [lia | done | done].
    + rewrite Hrec. split.
      * intros (b & Hle & Hl & Hd). exists b. split_and!; [lia | done | done].
      * intros (b & Hle & Hl & Hd). exists b. split_and!; [| done | done].
        destruct (decide (n = i)) as [->|Hne]; [| lia].
        rewrite Nat.sub_diag in Hl. simpl in Hl. congruence.
Qed.

Lemma positions_lower_bound (division : string) (l : list Attachee.t) (i n : nat) :
  n ∈ TechHub.positions division l i → i ≤ n.
Proof. by intros (a & Hle & _)%positions_spec. Qed.

Lemma positions_sorted (division : string) (l : list Attachee.t) (i : nat) :
  StronglySorted lt (TechHub.positions division l i).
Proof.
  revert i. induction l as [|a l IH]; intros i; simpl; [constructor |].
  case_bool_decide; [| done]. constructor; [done |].
  apply Forall_forall. intros n Hn%positions_lower_bound. lia.
Qed.

Lemma positions_filter (division : string) (l : list Attachee.t) :
  filter (λ a, Attachee.division a = division) l
    = omap (λ n, l !! n) (TechHub.positions division l 0).
Proof.
  enough (Hgen : ∀ pre,
    filter (λ a, Attachee.division a = division) l
      = omap (λ n, (pre ++ l) !! n) (TechHub.positions division l (length pre)))
    by apply (Hgen []).
  induction l as [|a l IH]; intros pre; [done |].
  specialize (IH (pre ++ [a])).
  rewrite length_app, Nat.add_1_r, <- app_assoc in IH. simpl in IH |- *.
  rewrite filter_cons. case_decide as Ha.
  - rewrite bool_decide_eq_true_2 by done. simpl.
    rewrite list_lookup_middle by done. simpl. by f_equal.
  - by rewrite bool_decide_eq_false_2.
Qed.

(** The loop of [assign_task_by_division], in closed form. *)
Lemma foldl_assign_task_at (task division : string) (divs : list string)
    (pre suf : list Attachee.t) :
  foldl (TechHub.assign_task_at task) (TechHub.mk divs (pre ++ suf))
        (TechHub.positions division suf (length pre))
  = TechHub.mk divs
      (pre ++ ((λ a, if decide (Attachee.division a = division)
                     then (Attachee.assign_task a task).2 else a) <$> suf)).
Proof.
  revert pre. induction suf as [|a suf IH]; intros pre; [done |].
  simpl. case_bool_decide as Ha.
  - rewrite decide_True by done. simpl.
    unfold TechHub.assign_task_at at 2. simpl.
    rewrite list_lookup_middle by done.
    rewrite insert_app_r_alt, Nat.sub_diag by done. simpl.
    unfold TechHub.set_attachees. simpl.
    specialize (IH (pre ++ [(Attachee.assign_task a task).2])).
    rewrite length_app, Nat.add_1_r, <- !app_assoc in IH. apply IH.
  - rewrite decide_False by done.
    specialize (IH (pre ++ [a])).
    rewrite length_app, Nat.add_1_r, <- !app_assoc in IH. apply IH.
Qed.

End hub.

Section hub_claims.
Context `{Builtins}.

(** The division list of a hub never changes. *)
Lemma divisions_exec (h : TechHub.t) (o : TechHub.op) :
  TechHub.divisions (TechHub.exec h o) = TechHub.divisions h.
Proof.
  destruct o as [name division|division task|i o]; simpl.
  - unfold TechHub.add_attachee. by case_bool_decide.
  - unfold TechHub.assign_task_by_division.
    case_bool_decide; [| done]. case_bool_decide; [| done]. simpl.
    destruct h as [divs l].
    pose proof (foldl_assign_task_at task division divs [] l) as Hf.
    simpl in Hf |- *. by rewrite Hf.
  - by destruct (TechHub.attachees h !! i).
Qed.

Lemma divisions_reachable (ops : list TechHub.op) :
  TechHub.divisions (foldl TechHub.exec TechHub.init ops)
    = ["Engineering"; "Tech Programs"; "Radio Support"; "Hub Support"].
Proof.
  induction ops as [|o ops IH] using rev_ind; [done |].
  by rewrite foldl_app; simpl; rewrite divisions_exec.
Qed.

(** C4: on a hub with the four fixed divisions, [add_attachee] with a
    division outside them returns the error message, which contains the
    division, and the hub, hence its [attachees], is unchanged; with a
    division among them it appends one new record with that name and
    division (no task, no feedback, no score, average 0) and returns the
    confirmation. *)
Theorem add_attachee_checks_division (h : TechHub.t) (name division : string) :
  TechHub.divisions h
    = ["Engineering"; "Tech Programs"; "Radio Support"; "Hub Support"] →
  (division ∉ ["Engineering"; "Tech Programs"; "Radio Support"; "Hub Support"] →
     TechHub.add_attachee h name division
       = ("Error: " +:+ division +:+ " is not a valid division.", h)
     ∧ is_error (TechHub.add_attachee h name division).1 = true
     ∧ contains division (TechHub.add_attachee h name division).1 = true)
  ∧ (division ∈ ["Engineering"; "Tech Programs"; "Radio Support"; "Hub Support"] →
     TechHub.add_attachee h name division
       = (name +:+ " added to " +:+ division +:+ " division.",
          TechHub.mk (TechHub.divisions h)
            (TechHub.attachees h ++ [Attachee.mk name division [] ∅ ∅ 0]))
     ∧ length (TechHub.attachees (TechHub.add_attachee h name division).2)
         = S (length (TechHub.attachees h))).
Proof.
  intros Hd. rewrite <- Hd. split; intros Hin.
  - rewrite add_attachee_invalid by done. cbn [fst]. split_and!; [done | |].
    + apply prefix_app.
    + apply (contains_app_r _ "Error: "), contains_here.
  - rewrite add_attachee_valid by done. simpl. split; [done |].
    rewrite length_app. simpl. lia.
Qed.

(** C5, amended: when no record of the hub has a name that matches the
    name case-insensitively, [add_attachee] with a valid division followed
    by [get_attachee] returns the new record: its division is the one
    given and its task list is empty.  When a record matches already,
    [get_attachee] still returns that earlier record. *)
Theorem add_attachee_then_get_attachee (h : TechHub.t) (name division : string) :
  division ∈ TechHub.divisions h →
  (TechHub.get_attachee h name = None →
     ∃ a, TechHub.get_attachee (TechHub.add_attachee h name division).2 name = Some a
          ∧ Attachee.name a = name
          ∧ Attachee.division a = division
          ∧ Attachee.tasks a = [])
  ∧ (∀ b, TechHub.get_attachee h name = Some b →
       TechHub.get_attachee (TechHub.add_attachee h name division).2 name = Some b).
Proof.
  intros Hd. rewrite add_attachee_valid by done.
  unfold TechHub.get_attachee. simpl. rewrite first_named_app. split.
  - intros ->. simpl. rewrite bool_decide_eq_true_2 by done. by eexists.
  - by intros b ->.
Qed.

(** C6: [get_attachee] returns the first record, in the order of
    [attachees], whose lowered name is the lowered argument: no record
    before it matches.  When no record matches it returns [None]; it is a
    total function, so it never raises. *)
Theorem get_attachee_first_match (h : TechHub.t) (name : string) :
  match TechHub.get_attachee h name with
  | Some a =>
      ∃ l1 l2, TechHub.attachees h = l1 ++ a :: l2
        ∧ str_lower (Attachee.name a) = str_lower name
        ∧ ∀ b, b ∈ l1 → str_lower (Attachee.name b) ≠ str_lower name
  | None =>
      ∀ b, b ∈ TechHub.attachees h →
        str_lower (Attachee.name b) ≠ str_lower name
  end.
Proof.
  unfold TechHub.get_attachee.
  destruct (TechHub.first_named (TechHub.attachees h) name) as [a|] eqn:E.
  - by apply first_named_Some.
  - by apply first_named_None.
Qed.

(** C8: [get_attachees_by_division] returns the empty list for a division
    outside [divisions] and for a division no record belongs to; for a
    valid division it returns the records of [attachees] whose division is
    the one asked, all of them and no other, in the order of [attachees]. *)
Theorem get_attachees_by_division_spec (h : TechHub.t) (division : string) :
  (division ∉ TechHub.divisions h →
     TechHub.get_attachees_by_division h division = [])
  ∧ ((∀ a, a ∈ TechHub.attachees h → Attachee.division a ≠ division) →
     TechHub.get_attachees_by_division h division = [])
  ∧ (division ∈ TechHub.divisions h →
     TechHub.get_attachees_by_division h division
       = filter (λ a, Attachee.division a = division) (TechHub.attachees h)
     ∧ TechHub.get_attachees_by_division h division `sublist_of` TechHub.attachees h
     ∧ ∀ a, a ∈ TechHub.get_attachees_by_division h division
            ↔ a ∈ TechHub.attachees h ∧ Attachee.division a = division).
Proof.
  unfold TechHub.get_attachees_by_division. split_and!.
  - intros Hn. by rewrite bool_decide_eq_false_2.
  - intros Hall. case_bool_decide; [| done].
    induction (TechHub.attachees h) as [|a l IH]; [done |].
    rewrite filter_cons_False; [| apply Hall; by left].
    apply IH. intros b Hb. apply Hall. by right.
  - intros Hd. rewrite bool_decide_eq_true_2 by done. split_and!.
    + done.
    + apply sublist_filter.
    + intros a. rewrite list_elem_of_filter. tauto.
Qed.

(** C7: [assign_task_by_division] does exactly one of three things.  For a
    valid division with a record, it calls [assign_task] on the records of
    the division, at their positions in [attachees] in increasing order,
    every such position once: each record of the division gets the task,
    the others are untouched, and the bulk confirmation is returned.  For a
    valid division without a record it returns the no-attachees message and
    the hub is unchanged.  For an invalid division it returns the division
    error and the hub is unchanged.  The three messages differ. *)
Theorem assign_task_by_division_cases (h : TechHub.t) (division task : string) :
  let bulk := "Task '" +:+ task +:+ "' assigned to all attachees in "
                +:+ division +:+ " division." in
  let none := "No attachees found in " +:+ division +:+ " division." in
  let error := "Error: " +:+ division +:+ " is not a valid division." in
  (bulk ≠ none ∧ bulk ≠ error ∧ none ≠ error)
  ∧ ((division ∈ TechHub.divisions h
      ∧ TechHub.get_attachees_by_division h division ≠ []
      ∧ ∃ calls : list nat,
          StronglySorted lt calls
          ∧ (∀ i, i ∈ calls ↔ ∃ a, TechHub.attachees h !! i = Some a
                                   ∧ Attachee.division a = division)
          ∧ TechHub.assign_task_by_division h division task
              = (bulk, foldl (TechHub.assign_task_at task) h calls)
          ∧ (TechHub.assign_task_by_division h division task).2
              = TechHub.mk (TechHub.divisions h)
                  ((λ a, if decide (Attachee.division a = division)
                         then (Attachee.assign_task a task).2 else a)
                     <$> TechHub.attachees h))
     ∨ (division ∈ TechHub.divisions h
        ∧ TechHub.get_attachees_by_division h division = []
        ∧ TechHub.assign_task_by_division h division task = (none, h))
     ∨ ((division ∉ TechHub.divisions h)
        ∧ TechHub.assign_task_by_division h division task = (error, h))).
Proof.
  cbv zeta. split; [by split_and! |].
  unfold TechHub.assign_task_by_division.
  case_bool_decide as Hd; [| by right; right].
  case_bool_decide as Hl.
  - left. split_and!; [done | done |].
    exists (TechHub.positions division (TechHub.attachees h) 0). split_and!.
    + apply positions_sorted.
    + intros i. rewrite positions_spec, Nat.sub_0_r.
      split; intros (a & ?); exists a; [tauto | split; [lia | tauto]].
    + done.
    + simpl. destruct h as [divs l].
      apply (foldl_assign_task_at task division divs [] l).
  - right; left. split_and!; [done | | done].
    by destruct (decide (TechHub.get_attachees_by_division h division = [])).
Qed.

End hub_claims.

Section messages.
Context `{Builtins}.

(** C9, amended: a failure is reported as follows.  An invalid division,
    in [add_attachee], [assign_task_by_division] and
    [display_division_performance]: the message says that the division is
    not valid and contains it.  An unassigned task, in [add_feedback] and
    [add_score]: the message says that the task is not assigned and
    contains the task and the record's name.  A score out of range: the
    fixed message with the bounds, which contains no value of the call.  A
    name without a match: [get_attachee] returns [None], not a message. *)
Theorem failure_messages :
  (∀ (h : TechHub.t) (name division : string),
     division ∉ TechHub.divisions h →
     (TechHub.add_attachee h name division).1
       = "Error: " +:+ division +:+ " is not a valid division."
     ∧ contains division (TechHub.add_attachee h name division).1 = true)
  ∧ (∀ (h : TechHub.t) (division task : string),
     division ∉ TechHub.divisions h →
     (TechHub.assign_task_by_division h division task).1
       = "Error: " +:+ division +:+ " is not a valid division."
     ∧ contains division (TechHub.assign_task_by_division h division task).1 = true)
  ∧ (∀ (h : TechHub.t) (division : string),
     division ∉ TechHub.divisions h →
     TechHub.display_division_performance h division
       = Some ("Error: " +:+ division +:+ " is not a valid division."))
  ∧ (∀ (a : Attachee.t) (task fb : string),
     task ∉ Attachee.tasks a →
     (Attachee.add_feedback a task fb).1
       = "Error: Task '" +:+ task +:+ "' not assigned to " +:+ Attachee.name a +:+ "."
     ∧ contains task (Attachee.add_feedback a task fb).1 = true
     ∧ contains (Attachee.name a) (Attachee.add_feedback a task fb).1 = true)
  ∧ (∀ (a : Attachee.t) (task : string) (score : Q),
     task ∉ Attachee.tasks a →
     (Attachee.add_score a task score).1
       = "Error: Task '" +:+ task +:+ "' not assigned to " +:+ Attachee.name a +:+ "."
     ∧ contains task (Attachee.add_score a task score).1 = true
     ∧ contains (Attachee.name a) (Attachee.add_score a task score).1 = true)
  ∧ (∀ (a : Attachee.t) (task : string) (score : Q),
     task ∈ Attachee.tasks a → in_range score = false →
     (Attachee.add_score a task score).1 = "Error: Score must be between 0 and 10.")
  ∧ (∀ (h : TechHub.t) (name : string),
     (∀ b, b ∈ TechHub.attachees h →
        str_lower (Attachee.name b) ≠ str_lower name) →
     TechHub.get_attachee h name = None).
Proof.
  assert (Hdiv : ∀ division,
    contains division ("Error: " +:+ division +:+ " is not a valid division.") = true).
  { intros division. apply (contains_app_r _ "Error: "), contains_here. }
  assert (Htask : ∀ task name,
    contains task ("Error: Task '" +:+ task +:+ "' not assigned to " +:+ name +:+ ".") = true
    ∧ contains name ("Error: Task '" +:+ task +:+ "' not assigned to " +:+ name +:+ ".") = true).
  { intros task name. split.
    - apply (contains_app_r _ "Error: Task '"), contains_here.
    - apply (contains_app_r _ "Error: Task '"), (contains_app_r _ task),
        (contains_app_r _ "' not assigned to "), contains_here. }
  split_and!.
  - intros h name division Hn. rewrite add_attachee_invalid by done. cbn [fst]. auto.
  - intros h division task Hn. unfold TechHub.assign_task_by_division.
    rewrite bool_decide_eq_false_2 by done. cbn [fst]. auto.
  - intros h division Hn. unfold TechHub.display_division_performance.
    by rewrite bool_decide_eq_false_2.
  - intros a task fb Hn. unfold Attachee.add_feedback.
    rewrite bool_decide_eq_false_2 by done. cbn [fst].
    destruct (Htask task (Attachee.name a)). auto.
  - intros a task score Hn. rewrite add_score_unassigned by done. cbn [fst].
    destruct (Htask task (Attachee.name a)). auto.
  - intros a task score Hin Hr. by rewrite add_score_rejected.
  - intros h name Hall. by apply first_named_None.
Qed.

End messages.

Lemma failure_messages_witness :
  ("Marketing" ∉ TechHub.divisions hub_john)
  ∧ (TechHub.add_attachee hub_john "Alex Wong" "Marketing").1
      = "Error: Marketing is not a valid division."
  ∧ "Fix bug" ∈ Attachee.tasks john
  ∧ in_range 12 = false
  ∧ (@Attachee.add_score ascii_builtins john "Fix bug" 12).1
      = "Error: Score must be between 0 and 10.".
Proof.
  assert (Hd : "Marketing" ∉ TechHub.divisions hub_john) by by_compute.
  assert (Ht : "Fix bug" ∈ Attachee.tasks john) by by_compute.
  pose proof (@failure_messages ascii_builtins) as (Hadd & _ & _ & _ & _ & Hscore & _).
  split_and!; [exact Hd | | exact Ht | reflexivity |].
  - exact (proj1 (Hadd hub_john "Alex Wong" "Marketing" Hd)).
  - exact (Hscore john "Fix bug" (12 : Q) Ht eq_refl).
Defined.

(** C9 as stated fails twice.  The message for a score out of range
    contains neither the task, nor the name, nor the score; and a name that
    is not found gives no message at all. *)
Lemma failure_messages_counterexample :
  "Fix bug" ∈ Attachee.tasks john
  ∧ (@Attachee.add_score ascii_builtins john "Fix bug" 12).1
      = "Error: Score must be between 0 and 10."
  ∧ contains "Fix bug" (@Attachee.add_score ascii_builtins john "Fix bug" 12).1 = false
  ∧ contains "John Smith" (@Attachee.add_score ascii_builtins john "Fix bug" 12).1 = false
  ∧ contains "12" (@Attachee.add_score ascii_builtins john "Fix bug" 12).1 = false
  ∧ @TechHub.get_attachee ascii_builtins hub_john "Alex Wong" = None.
Proof. split_and!; first [by_compute | by vm_compute]. Qed.

Lemma add_attachee_checks_division_witness :
  TechHub.divisions hub_john
    = ["Engineering"; "Tech Programs"; "Radio Support"; "Hub Support"]
  ∧ TechHub.add_attachee hub_john "Alex Wong" "Marketing"
      = ("Error: Marketing is not a valid division.", hub_john)
  ∧ TechHub.attachees (TechHub.add_attachee hub_john "Maria Garcia" "Engineering").2
      = TechHub.attachees hub_john
          ++ [Attachee.mk "Maria Garcia" "Engineering" [] ∅ ∅ 0].
Proof.
  assert (Hd : TechHub.divisions hub_john
                 = ["Engineering"; "Tech Programs"; "Radio Support"; "Hub Support"])
    by reflexivity.
  split_and!; [exact Hd | |].
  - apply (add_attachee_checks_division hub_john "Alex Wong" "Marketing" Hd).
    by_compute.
  - destruct (add_attachee_checks_division hub_john "Maria Garcia" "Engineering" Hd)
      as [_ Hvalid].
    destruct Hvalid as [-> _]; [by_compute | reflexivity].
Defined.

Lemma add_attachee_then_get_attachee_witness :
  "Engineering" ∈ TechHub.divisions TechHub.init
  ∧ @TechHub.get_attachee ascii_builtins TechHub.init "John Smith" = None
  ∧ ∃ a, @TechHub.get_attachee ascii_builtins
           (TechHub.add_attachee TechHub.init "John Smith" "Engineering").2
           "John Smith" = Some a
         ∧ Attachee.name a = "John Smith"
         ∧ Attachee.division a = "Engineering"
         ∧ Attachee.tasks a = [].
Proof.
  assert (Hd : "Engineering" ∈ TechHub.divisions TechHub.init) by by_compute.
  split_and!; [exact Hd | reflexivity |].
  exact (proj1 (@add_attachee_then_get_attachee ascii_builtins
                  TechHub.init "John Smith" "Engineering" Hd) eq_refl).
Defined.

(** C5 as stated fails when the name is taken: with John Smith in
    Engineering, adding a John Smith to Hub Support and looking the name up
    returns the Engineering record. *)
Lemma add_attachee_then_get_attachee_counterexample :
  "Hub Support" ∈ TechHub.divisions hub_john
  ∧ Attachee.division <$>
      @TechHub.get_attachee ascii_builtins
        (TechHub.add_attachee hub_john "John Smith" "Hub Support").2 "John Smith"
    = Some "Engineering"
  ∧ "Engineering" ≠ "Hub Support".
Proof. split_and!; [by_compute | by vm_compute | done]. Qed.

Lemma get_attachees_by_division_spec_witness :
  "Engineering" ∈ TechHub.divisions hub_john
  ∧ ("Marketing" ∉ TechHub.divisions hub_john)
  ∧ TechHub.get_attachees_by_division hub_john "Engineering"
      = filter (λ a, Attachee.division a = "Engineering") (TechHub.attachees hub_john)
  ∧ TechHub.get_attachees_by_division hub_john "Marketing" = [].
Proof.
  assert (Hd : "Engineering" ∈ TechHub.divisions hub_john) by by_compute.
  assert (Hn : "Marketing" ∉ TechHub.divisions hub_john) by by_compute.
  destruct (get_attachees_by_division_spec hub_john "Engineering") as (_ & _ & Hv).
  destruct (get_attachees_by_division_spec hub_john "Marketing") as (Hi & _ & _).
  split_and!; [exact Hd | exact Hn | exact (proj1 (Hv Hd)) | exact (Hi Hn)].
Defined.

(** ** Scenarios *)

(** The lookup ignores case. *)
Example get_attachee_ignores_case :
  @TechHub.get_attachee ascii_builtins hub_john "JOHN smith"
    = Some (Attachee.init "John Smith" "Engineering").
Proof. by vm_compute. Qed.

(** Score 8 for "Fix bug" gives the average 8; the score 12 is then
    rejected and the average stays. *)
Example score_then_rejected_score :
  (Attachee.average_score john_scored == 8)%Q
  ∧ @Attachee.add_score ascii_builtins john_scored "Fix bug" 12
      = ("Error: Score must be between 0 and 10.", john_scored).
Proof. split; by vm_compute. Qed.

(** Two Engineering records and one of Tech Programs: the division query
    returns the two, in the order added, and a bulk assignment reaches
    both and only them. *)
Example division_of_two :
  let hub := foldl (@TechHub.exec ascii_builtins) TechHub.init
               [TechHub.AddAttachee "John Smith" "Engineering";
                TechHub.AddAttachee "David Kim" "Tech Programs";
                TechHub.AddAttachee "Maria Garcia" "Engineering"] in
  Attachee.name <$> TechHub.get_attachees_by_division hub "Engineering"
    = ["John Smith"; "Maria Garcia"]
  ∧ Attachee.tasks <$>
      TechHub.attachees (TechHub.assign_task_by_division hub "Engineering" "Review").2
    = [["Review"]; []; ["Review"]].
Proof. split; by vm_compute. Qed.

(** * Further properties of the records *)

Section attachee_more.
Context `{Builtins}.

Lemma add_feedback_assigned (a : Attachee.t) (task fb : string) :
  task ∈ Attachee.tasks a →
  Attachee.add_feedback a task fb =
    ("Feedback added for " +:+ Attachee.name a +:+ "'s task: '" +:+ task +:+ "'",
     Attachee.set_feedback a (<[task := fb]> (Attachee.feedback a))).
Proof. intros Hin. unfold Attachee.add_feedback. by rewrite bool_decide_eq_true_2. Qed.

Lemma add_feedback_unassigned (a : Attachee.t) (task fb : string) :
  task ∉ Attachee.tasks a →
  Attachee.add_feedback a task fb =
    ("Error: Task '" +:+ task +:+ "' not assigned to " +:+ Attachee.name a +:+ ".", a).
Proof. intros Hn. unfold Attachee.add_feedback. by rewrite bool_decide_eq_false_2. Qed.

(** X1: feedback given twice for a task: the second call decides the outcome,
    message and state, whether the task is assigned or not. *)
Theorem add_feedback_last_wins (a : Attachee.t) (task fb1 fb2 : string) :
  Attachee.add_feedback (Attachee.add_feedback a task fb1).2 task fb2
    = Attachee.add_feedback a task fb2.
Proof.
  destruct (decide (task ∈ Attachee.tasks a)) as [Hin|Hn].
  - rewrite (add_feedback_assigned a task fb1) by done. cbn [snd].
    rewrite !add_feedback_assigned by done.
    unfold Attachee.set_feedback. simpl. by rewrite insert_insert_eq.
  - by rewrite (add_feedback_unassigned a task fb1).
Qed.

Lemma update_average_score_scores (a1 a2 : Attachee.t) :
  Attachee.name a1 = Attachee.name a2 →
  Attachee.division a1 = Attachee.division a2 →
  Attachee.tasks a1 = Attachee.tasks a2 →
  Attachee.feedback a1 = Attachee.feedback a2 →
  Attachee.scores a1 = Attachee.scores a2 →
  Attachee._update_average_score a1 = Attachee._update_average_score a2.
Proof.
  destruct a1, a2. simpl. intros -> -> -> -> ->.
  unfold Attachee._update_average_score. simpl. by case_bool_decide.
Qed.

(** X2: a task scored twice: when the second score is in range, the record
    after both calls is the one the second call alone gives; the first
    score leaves no trace, in [scores] or in [average_score]. *)
Theorem add_score_last_wins (a : Attachee.t) (task : string) (s1 s2 : Q) :
  in_range s2 = true →
  Attachee.add_score (Attachee.add_score a task s1).2 task s2
    = Attachee.add_score a task s2.
Proof.
  intros Hr2. destruct (decide (task ∈ Attachee.tasks a)) as [Hin|Hn].
  - destruct (in_range s1) eqn:Hr1.
    + rewrite (add_score_accepted a task s1) by done. cbn [snd].
      destruct (update_average_score_fields
                  (Attachee.set_scores a (<[task := s1]> (Attachee.scores a))))
        as (Hname & Hdiv & Htasks & Hfb & Hsc).
      rewrite !add_score_accepted; [| done | done | by rewrite Htasks | done].
      rewrite Hname. f_equal.
      apply update_average_score_scores; simpl; try done.
      rewrite Hsc. simpl. by rewrite insert_insert_eq.
    + by rewrite (add_score_rejected a task s1).
  - by rewrite (add_score_unassigned a task s1).
Qed.

(** X3: an accepted score: [scores] gains or replaces that one entry, the
    average becomes the mean of all the values [scores] now holds, and
    tasks, feedback, name and division stay. *)
Theorem add_score_recomputes_mean (a : Attachee.t) (task : string) (score : Q) :
  task ∈ Attachee.tasks a → in_range score = true →
  let a' := (Attachee.add_score a task score).2 in
  Attachee.scores a' = <[task := score]> (Attachee.scores a)
  ∧ (Attachee.average_score a' == mean_of_scores (Attachee.scores a'))%Q
  ∧ Attachee.tasks a' = Attachee.tasks a
  ∧ Attachee.feedback a' = Attachee.feedback a
  ∧ Attachee.name a' = Attachee.name a
  ∧ Attachee.division a' = Attachee.division a.
Proof.
  intros Hin Hr. cbv zeta. rewrite add_score_accepted by done. cbn [snd].
  unfold Attachee._update_average_score. simpl.
  rewrite bool_decide_eq_true_2 by apply insert_non_empty. simpl.
  split_and!; try done.
  unfold mean_of_scores, mean, values.
  by rewrite sum_foldr, length_fmap, length_map_to_list.
Qed.

End attachee_more.

Lemma add_score_last_wins_witness :
  in_range 5 = true
  ∧ @Attachee.add_score ascii_builtins
      (@Attachee.add_score ascii_builtins john "Fix bug" 8).2 "Fix bug" 5
    = @Attachee.add_score ascii_builtins john "Fix bug" 5.
Proof.
  split; [reflexivity |].
  exact (@add_score_last_wins ascii_builtins john "Fix bug" 8 5 eq_refl).
Defined.

Lemma add_score_recomputes_mean_witness :
  "Fix bug" ∈ Attachee.tasks john
  ∧ in_range 8 = true
  ∧ (Attachee.average_score (@Attachee.add_score ascii_builtins john "Fix bug" 8).2
     == mean_of_scores
          (Attachee.scores (@Attachee.add_score ascii_builtins john "Fix bug" 8).2))%Q.
Proof.
  assert (Hin : "Fix bug" ∈ Attachee.tasks john) by by_compute.
  split_and!; [exact Hin | reflexivity |].
  exact (proj1 (proj2 (@add_score_recomputes_mean ascii_builtins john "Fix bug" 8
                         Hin eq_refl))).
Defined.

(** ** Bounds and keys in reachable records *)

Section bounds.

Lemma inject_Z_succ (n : nat) :
  (inject_Z (Z.of_nat (S n)) == inject_Z (Z.of_nat n) + 1)%Q.
Proof. by rewrite Nat2Z.inj_succ, <- Z.add_1_r, inject_Z_plus. Qed.

Lemma foldr_Qplus_bounds (l : list Q) :
  (∀ s, s ∈ l → (0 <= s ∧ s <= 10)%Q) →
  (0 <= foldr Qplus 0 l ∧ foldr Qplus 0 l <= 10 * inject_Z (Z.of_nat (length l)))%Q.
Proof.
  induction l as [|x l IH]; intros Hl.
  - simpl. split; [apply Qle_refl | by vm_compute].
  - destruct IH as [IH0 IH10]; [intros s Hs; apply Hl; by right |].
    destruct (Hl x) as [Hx0 Hx10]; [by left |].
    change (foldr Qplus 0%Q (x :: l)) with (x + foldr Qplus 0%Q l)%Q.
    change (length (x :: l)) with (S (length l)).
    rewrite inject_Z_succ. split; lra.
Qed.

Lemma mean_bounds (l : list Q) :
  l ≠ [] → (∀ s, s ∈ l → (0 <= s ∧ s <= 10)%Q) →
  (0 <= sum l / inject_Z (Z.of_nat (length l))
   ∧ sum l / inject_Z (Z.of_nat (length l)) <= 10)%Q.
Proof.
  intros Hne Hl. destruct (foldr_Qplus_bounds l Hl) as [H0 H10].
  assert (Hpos : (0 < inject_Z (Z.of_nat (length l)))%Q).
  { destruct l; [done |]. unfold Qlt. simpl. lia. }
  rewrite sum_foldr. split.
  - apply Qle_shift_div_l; [done |]. lra.
  - apply Qle_shift_div_r; [done |]. lra.
Qed.

Lemma elem_of_values (m : gmap string Q) (s : Q) :
  s ∈ values m ↔ ∃ t, m !! t = Some s.
Proof.
  unfold values. rewrite list_elem_of_fmap. split.
  - intros ([t s'] & -> & Hts). exists t. by apply elem_of_map_to_list.
  - intros (t & Ht). exists (t, s). split; [done |]. by apply elem_of_map_to_list.
Qed.

Lemma length_values (m : gmap string Q) : length (values m) = size m.
Proof. unfold values. by rewrite length_fmap, length_map_to_list. Qed.

Context `{Builtins}.

Lemma scores_bounded_exec (a : Attachee.t) (o : Attachee.op) :
  scores_bounded a → scores_bounded (Attachee.exec a o).
Proof.
  intros [Hs Havg]. destruct o as [task|task fb|task score|]; cbn [Attachee.exec].
  - rewrite assign_task_state. split; simpl; [| done].
    intros t s. rewrite lookup_insert. case_decide.
    + intros [= <-]. split; by vm_compute.
    + apply Hs.
  - unfold Attachee.add_feedback. by case_bool_decide.
  - destruct (decide (task ∈ Attachee.tasks a)) as [Hin|Hn];
      [| by rewrite add_score_unassigned].
    destruct (in_range score) eqn:Hr; [| by rewrite add_score_rejected].
    rewrite add_score_accepted by done. cbn [snd].
    unfold Attachee._update_average_score. simpl.
    rewrite bool_decide_eq_true_2 by apply insert_non_empty.
    assert (Hs' : ∀ t s, <[task := score]> (Attachee.scores a) !! t = Some s →
                         (0 <= s ∧ s <= 10)%Q).
    { intros t s. rewrite lookup_insert. case_decide.
      - intros [= <-]. by apply in_range_spec.
      - apply Hs. }
    split; simpl; [done |].
    rewrite <- length_values. apply mean_bounds.
    + intros Hnil. apply (f_equal length) in Hnil.
      rewrite length_values in Hnil. simpl in Hnil.
      apply map_size_empty_iff in Hnil. by apply insert_non_empty in Hnil.
    + intros s (t & Ht)%elem_of_values. by apply (Hs' t).
  - done.
Qed.

Lemma insert_assigned_dom {V : Type} (m : gmap string V) (l : list string)
    (task : string) (v : V) :
  dom m = list_to_set l → task ∈ l → dom (<[task := v]> m) = list_to_set l.
Proof.
  intros Hm Hin. rewrite dom_insert_L, Hm.
  by apply subseteq_union_1_L, singleton_subseteq_l, elem_of_list_to_set.
Qed.

Lemma insert_appended_dom {V : Type} (m : gmap string V) (l : list string)
    (task : string) (v : V) :
  dom m = list_to_set l → dom (<[task := v]> m) = list_to_set (l ++ [task]).
Proof.
  intros Hm. rewrite dom_insert_L, Hm, list_to_set_app_L. simpl.
  by rewrite (right_id_L ∅ (∪)), (comm_L (∪)).
Qed.

Lemma keys_are_tasks_exec (a : Attachee.t) (o : Attachee.op) :
  keys_are_tasks a → keys_are_tasks (Attachee.exec a o).
Proof.
  intros [Hf Hs]. destruct o as [task|task fb|task score|]; cbn [Attachee.exec].
  - rewrite assign_task_state. split; simpl; by apply insert_appended_dom.
  - destruct (decide (task ∈ Attachee.tasks a)) as [Hin|Hn].
    + rewrite add_feedback_assigned by done. split; simpl; [| done].
      by apply insert_assigned_dom.
    + by rewrite add_feedback_unassigned.
  - destruct (decide (task ∈ Attachee.tasks a)) as [Hin|Hn];
      [| by rewrite add_score_unassigned].
    destruct (in_range score) eqn:Hr; [| by rewrite add_score_rejected].
    rewrite add_score_accepted by done. cbn [snd].
    destruct (update_average_score_fields
                (Attachee.set_scores a (<[task := score]> (Attachee.scores a))))
      as (_ & _ & Ht & Hfb & Hsc).
    unfold keys_are_tasks. rewrite Ht, Hfb, Hsc. simpl. split; [done |].
    by apply insert_assigned_dom.
  - done.
Qed.

(** X5: in every state a record can reach, each stored score and the average
    lie between 0 and 10. *)
Theorem reachable_scores_bounded (name division : string) (ops : list Attachee.op) :
  scores_bounded (foldl Attachee.exec (Attachee.init name division) ops).
Proof.
  induction ops as [|o ops IH] using rev_ind.
  - split; simpl; [| split; by vm_compute].
    intros t s. by rewrite lookup_empty.
  - rewrite foldl_app. simpl. by apply scores_bounded_exec.
Qed.

(** X6: in every state a record can reach, the keys of [feedback] and the keys
    of [scores] are the names of the [tasks] list and nothing else: no
    operation leaves an entry without its task. *)
Theorem reachable_keys_are_tasks (name division : string) (ops : list Attachee.op) :
  keys_are_tasks (foldl Attachee.exec (Attachee.init name division) ops).
Proof.
  induction ops as [|o ops IH] using rev_ind.
  - split; simpl; by rewrite dom_empty_L.
  - rewrite foldl_app. simpl. by apply keys_are_tasks_exec.
Qed.

End bounds.

(** ** Tasks without a score in the average *)

Section partly_scored.

Lemma sum_values_insert (m : gmap string Q) (t : string) (old s : Q) :
  m !! t = Some old →
  (foldr Qplus 0 (values (<[t := s]> m)) == foldr Qplus 0 (values m) - old + s)%Q.
Proof.
  intros Hm.
  assert (Hnew : values (<[t := s]> m) ≡ₚ s :: values (delete t m)).
  { unfold values. rewrite <- insert_delete_eq.
    by rewrite map_to_list_insert by apply lookup_delete_eq. }
  assert (Hold : values m ≡ₚ old :: values (delete t m)).
  { unfold values. rewrite <- (insert_delete_id m t old) at 1 by done.
    by rewrite map_to_list_insert by apply lookup_delete_eq. }
  rewrite (foldr_Qplus_perm _ _ Hnew), (foldr_Qplus_perm _ _ Hold). simpl. ring.
Qed.

Lemma sum_values_zero (m : gmap string Q) :
  (∀ t s, m !! t = Some s → s = (0 : Q)) → (foldr Qplus 0 (values m) == 0)%Q.
Proof.
  intros Hm.
  assert (Hall : ∀ s, s ∈ values m → s = (0 : Q)).
  { intros s (t & Ht)%elem_of_values. by apply (Hm t). }
  induction (values m) as [|x l IH]; simpl; [reflexivity |].
  rewrite (Hall x) by by left. rewrite IH; [ring |].
  intros s Hs. apply Hall. by right.
Qed.

(** Scoring tasks that stand at 0, each once. *)
Lemma foldl_insert_over_zero (m : gmap string Q) (qs : list (string * Q)) :
  NoDup qs.*1 → (∀ t, t ∈ qs.*1 → m !! t = Some (0 : Q)) →
  let m' := foldl (λ m p, <[p.1 := p.2]> m) m qs in
  size m' = size m
  ∧ (foldr Qplus 0 (values m') == foldr Qplus 0 (values m) + foldr Qplus 0 qs.*2)%Q.
Proof.
  cbv zeta. revert m. induction qs as [|[t s] qs IH]; intros m Hnd Hz.
  - simpl. split; [done | ring].
  - simpl in *. apply NoDup_cons in Hnd as [Hn Hnd].
    destruct (IH (<[t := s]> m) Hnd) as [Hsize Hsum].
    { intros t' Ht'. rewrite lookup_insert_ne; [| by intros ->].
      apply Hz. by right. }
    rewrite Hsize, Hsum. split.
    + apply map_size_insert_Some. exists (0 : Q). apply Hz. by left.
    + rewrite (sum_values_insert m t 0 s) by (apply Hz; by left).
      change (list_fmap (string * Q)%type Q snd qs) with (qs.*2). ring.
Qed.

Context `{Builtins}.

Lemma exec_assign_names (a : Attachee.t) (ts : list string) :
  let b := foldl Attachee.exec a (Attachee.AssignTask <$> ts) in
  Attachee.tasks b = Attachee.tasks a ++ ts
  ∧ ∀ t, Attachee.scores b !! t
         = if decide (t ∈ ts) then Some (0 : Q) else Attachee.scores a !! t.
Proof.
  cbv zeta. revert a. induction ts as [|t0 ts IH]; intros a.
  - split; [by rewrite app_nil_r |]. intros t.
    rewrite decide_False; [done | apply not_elem_of_nil].
  - change (foldl Attachee.exec a (Attachee.AssignTask <$> t0 :: ts))
      with (foldl Attachee.exec (Attachee.assign_task a t0).2
              (Attachee.AssignTask <$> ts)).
    destruct (IH (Attachee.assign_task a t0).2) as [-> Hsc].
    rewrite assign_task_state in *. simpl in *. split.
    + by rewrite <- app_assoc.
    + intros t. rewrite Hsc. destruct (decide (t ∈ ts)) as [Hin|Hn].
      * rewrite decide_True; [done | by right].
      * rewrite lookup_insert. case_decide as Heq.
        -- subst. rewrite decide_True; [done | by left].
        -- rewrite decide_False; [done |].
           intros [->|?]%elem_of_cons; done.
Qed.

(** X4: a task that is assigned and not yet scored enters the average as 0.
    On a record that holds no score for a task outside t1..tk, assigning
    the distinct tasks t1..tk and then scoring some of them, each once and
    in range, leaves the average equal to the sum of the given scores over
    k, the number of assigned tasks, not over the number of scores. *)
Theorem unscored_tasks_count_as_zero
    (a : Attachee.t) (ts : list string) (qs : list (string * Q)) :
  NoDup ts → NoDup qs.*1 → qs ≠ [] →
  (∀ p, p ∈ qs → p.1 ∈ ts ∧ (0 <= p.2 ∧ p.2 <= 10)%Q) →
  (∀ t, is_Some (Attachee.scores a !! t) → t ∈ ts) →
  (Attachee.average_score
     (foldl Attachee.exec a
        ((Attachee.AssignTask <$> ts) ++ (uncurry Attachee.AddScore <$> qs)))
   == foldr Qplus 0 qs.*2 / inject_Z (Z.of_nat (length ts)))%Q.
Proof.
  intros Hts Hqs Hne Hin Hdom. rewrite foldl_app.
  destruct (exec_assign_names a ts) as [Htasks Hsc].
  set (b := foldl Attachee.exec a (Attachee.AssignTask <$> ts)) in *.
  destruct (exec_add_scores b qs) as (_ & Hs & Havg).
  { intros p Hp. destruct (Hin p Hp) as [Ht Hr]. split.
    - rewrite Htasks. apply elem_of_app. by right.
    - by apply in_range_spec. }
  rewrite (Havg Hne), Hs.
  assert (Hzero : ∀ t s, Attachee.scores b !! t = Some s → s = (0 : Q)).
  { intros t s. rewrite Hsc. case_decide as Ht; [congruence |].
    intros Hs'. destruct Ht. apply Hdom. by eexists. }
  destruct (foldl_insert_over_zero (Attachee.scores b) qs Hqs) as [Hsize Hsum].
  { intros t (p & -> & Hp)%list_elem_of_fmap. rewrite Hsc.
    rewrite decide_True; [done | by apply Hin]. }
  rewrite Hsize, sum_foldr, Hsum, (sum_values_zero _ Hzero).
  assert (Hk : size (Attachee.scores b) = length ts).
  { rewrite <- size_dom, <- (size_list_to_set (C:=gset string)) by done.
    f_equal. apply set_eq. intros t.
    rewrite elem_of_dom, elem_of_list_to_set, Hsc. case_decide; [by split; [| eexists] |].
    split; [| done]. intros Hs'. by apply Hdom. }
  rewrite Hk. apply Qdiv_comp; [ring | reflexivity].
Qed.

End partly_scored.

Lemma unscored_tasks_count_as_zero_witness :
  NoDup ["Fix bug"; "Write docs"]
  ∧ NoDup [("Fix bug", 8 : Q)].*1
  ∧ (Attachee.average_score
       (foldl (@Attachee.exec ascii_builtins) (Attachee.init "John Smith" "Engineering")
          ((Attachee.AssignTask <$> ["Fix bug"; "Write docs"])
             ++ (uncurry Attachee.AddScore <$> [("Fix bug", 8 : Q)])))
     == 8 / 2)%Q.
Proof.
  assert (Hts : NoDup ["Fix bug"; "Write docs"]) by by_compute.
  assert (Hqs : NoDup [("Fix bug", 8 : Q)].*1) by by_compute.
  split_and!; [exact Hts | exact Hqs |].
  refine (Qeq_trans _ _ _
            (@unscored_tasks_count_as_zero ascii_builtins
               (Attachee.init "John Smith" "Engineering")
               ["Fix bug"; "Write docs"] [("Fix bug", 8 : Q)] Hts Hqs _ _ _) _).
  - done.
  - intros p ->%list_elem_of_singleton. split; [by_compute | by vm_compute].
  - intros t [x Hx]. simpl in Hx. by rewrite lookup_empty in Hx.
  - by vm_compute.
Defined.

(** ** The performance summary *)

Section summary.
Context `{Builtins}.

Lemma summary_of_tasks_Some (a : Attachee.t) (l : list string) (summary : string) :
  is_Some (Attachee.summary_of_tasks a l summary) ↔
  ∀ task, task ∈ l →
    is_Some (Attachee.feedback a !! task) ∧ is_Some (Attachee.scores a !! task).
Proof.
  revert summary. induction l as [|task l IH]; intros summary.
  - split; [| by eexists]. intros _ task Hin. by apply elem_of_nil in Hin.
  - cbn [Attachee.summary_of_tasks]. unfold Attachee.summary_of_task.
    destruct (Attachee.scores a !! task) as [score|] eqn:Hs.
    + destruct (Attachee.feedback a !! task) as [fb|] eqn:Hf.
      * rewrite IH. split.
        -- intros Hl t [->|Ht]%elem_of_cons; [| by apply Hl].
           rewrite Hs, Hf. split; by eexists.
        -- intros Hl t Ht. apply Hl. by right.
      * split; [by intros [? ?] |]. intros Hl.
        destruct (Hl task) as [[? Hf'] _]; [by left | congruence].
    + split; [by intros [? ?] |]. intros Hl.
      destruct (Hl task) as [_ [? Hs']]; [by left | congruence].
Qed.

(** X9: [get_performance_summary] returns its text exactly when every task of
    [tasks] has a key in [feedback] and in [scores]; on any other record
    it stops on a [KeyError]. *)
Theorem get_performance_summary_defined (a : Attachee.t) :
  is_Some (Attachee.get_performance_summary a) ↔ has_entries a.
Proof.
  unfold Attachee.get_performance_summary, has_entries.
  case_bool_decide as Ht.
  - rewrite Ht. split; [| by eexists]. intros _ task Hin.
    by apply elem_of_nil in Hin.
  - apply summary_of_tasks_Some.
Qed.

(** X10: no sequence of calls makes the summary of a record fail. *)
Theorem reachable_summary_defined (name division : string) (ops : list Attachee.op) :
  is_Some (Attachee.get_performance_summary
             (foldl Attachee.exec (Attachee.init name division) ops)).
Proof. apply get_performance_summary_total, has_entries_reachable. Qed.

Lemma summary_of_tasks_blocks (a : Attachee.t) (l : list string) (summary s : string) :
  Attachee.summary_of_tasks a l summary = Some s →
  (∃ rest, s = summary +:+ rest)
  ∧ ∀ task, task ∈ l →
      ∃ block, Attachee.summary_of_task a task = Some block
               ∧ contains block s = true.
Proof.
  revert summary. induction l as [|task l IH]; intros summary.
  - intros [= <-]. split.
    + exists EmptyString. clear. induction summary as [|c x IHx]; [done |].
      change (String c x = String c (x +:+ EmptyString)). by rewrite <- IHx.
    + intros task Hin. by apply elem_of_nil in Hin.
  - cbn [Attachee.summary_of_tasks].
    destruct (Attachee.summary_of_task a task) as [block|] eqn:Hb; [| done].
    intros Hs. destruct (IH _ Hs) as [[rest ->] Hl]. split.
    + exists (block +:+ rest). by rewrite append_assoc.
    + intros t [->|Ht]%elem_of_cons; [| by apply Hl].
      exists block. split; [done |].
      rewrite append_assoc. apply contains_app_r, contains_here.
Qed.

(** X11: what a summary shows.  It names the record and its division; when
    there are tasks it shows the stored average and, for each task of
    [tasks], a block with the task, its stored score, and its feedback or,
    for empty feedback, the placeholder. *)
Theorem get_performance_summary_contents (a : Attachee.t) (s : string) :
  Attachee.get_performance_summary a = Some s →
  contains (Attachee.name a +:+ "'s Performance Summary ("
              +:+ Attachee.division a +:+ " Division)") s = true
  ∧ (Attachee.tasks a = [] → contains "No tasks assigned yet." s = true)
  ∧ (Attachee.tasks a ≠ [] →
       contains ("Average Score: " +:+ format_1f (Attachee.average_score a) +:+ "/10") s
         = true)
  ∧ ∀ task, task ∈ Attachee.tasks a →
      ∃ score fb,
        Attachee.scores a !! task = Some score
        ∧ Attachee.feedback a !! task = Some fb
        ∧ contains
            ("  - " +:+ task +:+ nl
               +:+ "    Score: " +:+ str_number score +:+ "/10" +:+ nl
               +:+ "    Feedback: "
               +:+ (if bool_decide (fb ≠ EmptyString) then fb else "No feedback yet")
               +:+ nl) s = true.
Proof.
  unfold Attachee.get_performance_summary. case_bool_decide as Ht.
  - intros [= <-]. split_and!.
    + apply contains_spec.
      exists (nl +:+ "--- "), (" ---" +:+ nl +:+ "No tasks assigned yet." +:+ nl).
      by rewrite !append_assoc.
    + intros _. apply contains_spec.
      exists (nl +:+ "--- " +:+ Attachee.name a +:+ "'s Performance Summary ("
                +:+ Attachee.division a +:+ " Division) ---" +:+ nl), nl.
      by rewrite !append_assoc.
    + done.
    + intros task. rewrite Ht. by intros ?%elem_of_nil.
  - intros Hs. apply summary_of_tasks_blocks in Hs as [[rest ->] Hl]. split_and!.
    + apply contains_spec.
      exists (nl +:+ "--- "),
        (" ---" +:+ nl +:+ "Average Score: "
           +:+ format_1f (Attachee.average_score a) +:+ "/10" +:+ nl
           +:+ "Tasks:" +:+ nl +:+ rest).
      by rewrite !append_assoc.
    + done.
    + intros _. apply contains_spec.
      exists (nl +:+ "--- " +:+ Attachee.name a +:+ "'s Performance Summary ("
                +:+ Attachee.division a +:+ " Division) ---" +:+ nl),
        (nl +:+ "Tasks:" +:+ nl +:+ rest).
      by rewrite !append_assoc.
    + intros task Hin. destruct (Hl task Hin) as (block & Hb & Hc).
      unfold Attachee.summary_of_task in Hb.
      destruct (Attachee.scores a !! task) as [score|]; [| done].
      destruct (Attachee.feedback a !! task) as [fb|]; [| done].
      injection Hb as <-. by exists score, fb.
Qed.

End summary.

Lemma get_performance_summary_contents_witness :
  ∃ s, @Attachee.get_performance_summary ascii_builtins john_scored = Some s
       ∧ contains "John Smith's Performance Summary (Engineering Division)" s = true.
Proof.
  destruct (@Attachee.get_performance_summary ascii_builtins john_scored)
    as [s|] eqn:Hs; [| by vm_compute in Hs].
  exists s. split; [done |].
  exact (proj1 (@get_performance_summary_contents ascii_builtins john_scored s Hs)).
Defined.

(** * Further properties of the hub *)

Section hub_more.
Context `{Builtins}.

Lemma fmap_fixed {A : Type} (f : A → A) (l : list A) :
  (∀ x, x ∈ l → f x = x) → f <$> l = l.
Proof.
  induction l as [|x l IH]; intros Hf; [done |].
  rewrite fmap_cons, Hf, IH; [done | | by left].
  intros y Hy. apply Hf. by right.
Qed.

Lemma filter_nil_not_elem (division : string) (l : list Attachee.t) :
  filter (λ a, Attachee.division a = division) l = [] →
  ∀ a, a ∈ l → Attachee.division a ≠ division.
Proof.
  intros Hnil a Hin Hd.
  assert (Ha : a ∈ filter (λ a, Attachee.division a = division) l)
    by by apply list_elem_of_filter.
  rewrite Hnil in Ha. by apply elem_of_nil in Ha.
Qed.

(** The state after [assign_task_by_division], the three cases at once. *)
Lemma assign_task_by_division_state (h : TechHub.t) (division task : string) :
  (TechHub.assign_task_by_division h division task).2
    = TechHub.mk (TechHub.divisions h)
        (bulk_assigned h division task <$> TechHub.attachees h).
Proof.
  destruct h as [divs l]. unfold TechHub.assign_task_by_division.
  cbn [TechHub.divisions TechHub.attachees].
  case_bool_decide as Hd.
  - case_bool_decide as Hl; cbn [snd].
    + pose proof (foldl_assign_task_at task division divs [] l) as Hf.
      simpl in Hf. rewrite Hf. f_equal. apply list_fmap_ext.
      intros i a _. unfold bulk_assigned. simpl.
      destruct (decide (Attachee.division a = division)).
      * by rewrite decide_True.
      * rewrite decide_False; [done | tauto].
    + f_equal. symmetry. apply fmap_fixed. intros a Ha.
      unfold bulk_assigned. rewrite decide_False; [done |]. intros [Hda _].
      unfold TechHub.get_attachees_by_division in Hl.
      rewrite bool_decide_eq_true_2 in Hl by done. simpl in Hl.
      destruct (decide (filter (λ a, Attachee.division a = division) l = []))
        as [Hnil|]; [| done].
      by apply (filter_nil_not_elem division l Hnil a).
  - cbn [snd]. f_equal. symmetry. apply fmap_fixed. intros a _.
    unfold bulk_assigned. rewrite decide_False; [done |]. simpl. tauto.
Qed.

Lemma bulk_assigned_frame (h : TechHub.t) (division task : string) (a : Attachee.t) :
  Attachee.name (bulk_assigned h division task a) = Attachee.name a
  ∧ Attachee.division (bulk_assigned h division task a) = Attachee.division a.
Proof. unfold bulk_assigned. by case_decide. Qed.

(** X12: no call removes a record from a hub, moves it, renames it or changes
    its division: after any call, each position of [attachees] still holds
    a record with the name and the division it had. *)
Theorem exec_keeps_records (h : TechHub.t) (o : TechHub.op) (i : nat) (a : Attachee.t) :
  TechHub.attachees h !! i = Some a →
  ∃ a', TechHub.attachees (TechHub.exec h o) !! i = Some a'
        ∧ Attachee.name a' = Attachee.name a
        ∧ Attachee.division a' = Attachee.division a.
Proof.
  intros Hi. destruct o as [name division|division task|j o]; cbn [TechHub.exec].
  - exists a. split; [| done]. unfold TechHub.add_attachee.
    case_bool_decide; [| done]. simpl. by apply lookup_app_l_Some.
  - rewrite assign_task_by_division_state. simpl.
    exists (bulk_assigned h division task a). split.
    + by rewrite list_lookup_fmap, Hi.
    + apply bulk_assigned_frame.
  - destruct (TechHub.attachees h !! j) as [b|] eqn:Hj; [| by exists a].
    simpl. rewrite list_lookup_insert. case_decide as Hij.
    + destruct Hij as [-> _]. assert (b = a) as -> by congruence.
      exists (Attachee.exec a o). split; [done |]. apply exec_frame.
    + by exists a.
Qed.

Lemma hub_ok_exec (h : TechHub.t) (o : TechHub.op) :
  hub_ok h → hub_ok (TechHub.exec h o).
Proof.
  intros [Hd Hall]. split; [by rewrite divisions_exec |].
  rewrite divisions_exec.
  destruct o as [name division|division task|j o]; cbn [TechHub.exec].
  - unfold TechHub.add_attachee. case_bool_decide as Hin; [| done]. simpl.
    intros a [Ha| ->%list_elem_of_singleton]%elem_of_app; [by apply Hall |].
    split; [done | apply has_entries_init].
  - rewrite assign_task_by_division_state. simpl.
    intros a' (a & -> & Ha)%list_elem_of_fmap. destruct (Hall a Ha) as [Hda He].
    destruct (bulk_assigned_frame h division task a) as [_ ->].
    split; [done |]. unfold bulk_assigned. case_decide; [| done].
    by apply has_entries_assign_task.
  - destruct (TechHub.attachees h !! j) as [b|] eqn:Hj; [| done]. simpl.
    intros a' (k & Hk)%list_elem_of_lookup.
    apply list_lookup_insert_Some in Hk as [(_ & <- & _)|[_ Hk]].
    + destruct (Hall b) as [Hdb He]; [by eapply list_elem_of_lookup_2 |].
      destruct (exec_frame b o) as [_ ->].
      split; [done | by apply has_entries_exec].
    + apply Hall. by eapply list_elem_of_lookup_2.
Qed.

Lemma hub_ok_reachable (ops : list TechHub.op) :
  hub_ok (foldl TechHub.exec TechHub.init ops).
Proof.
  induction ops as [|o ops IH] using rev_ind.
  - split; [done |]. intros a Ha. by apply elem_of_nil in Ha.
  - rewrite foldl_app. simpl. by apply hub_ok_exec.
Qed.

(** X13: whatever calls are made on a hub, every record in it belongs to one of
    the four divisions and has the two entries of each of its tasks. *)
Theorem reachable_records_valid (ops : list TechHub.op) (a : Attachee.t) :
  a ∈ TechHub.attachees (foldl TechHub.exec TechHub.init ops) →
  Attachee.division a
    ∈ ["Engineering"; "Tech Programs"; "Radio Support"; "Hub Support"]
  ∧ has_entries a.
Proof.
  intros Ha. destruct (hub_ok_reachable ops) as [Hd Hall].
  rewrite <- Hd. by apply Hall.
Qed.

End hub_more.

Lemma exec_keeps_records_witness :
  TechHub.attachees hub_john !! 0 = Some (Attachee.init "John Smith" "Engineering")
  ∧ ∃ a', TechHub.attachees
            (@TechHub.exec ascii_builtins hub_john
               (TechHub.AssignTaskByDivision "Engineering" "Review")) !! 0 = Some a'
          ∧ Attachee.name a' = "John Smith"
          ∧ Attachee.division a' = "Engineering".
Proof.
  split; [reflexivity |].
  exact (@exec_keeps_records ascii_builtins hub_john
           (TechHub.AssignTaskByDivision "Engineering" "Review") 0
           (Attachee.init "John Smith" "Engineering") eq_refl).
Defined.

Lemma reachable_records_valid_witness :
  Attachee.init "John Smith" "Engineering"
    ∈ TechHub.attachees
        (foldl (@TechHub.exec ascii_builtins) TechHub.init
           [TechHub.AddAttachee "John Smith" "Engineering"])
  ∧ has_entries (Attachee.init "John Smith" "Engineering").
Proof.
  assert (Hin : Attachee.init "John Smith" "Engineering"
                  ∈ TechHub.attachees
                      (foldl (@TechHub.exec ascii_builtins) TechHub.init
                         [TechHub.AddAttachee "John Smith" "Engineering"]))
    by (apply list_elem_of_singleton; reflexivity).
  split; [exact Hin |].
  exact (proj2 (@reachable_records_valid ascii_builtins
                  [TechHub.AddAttachee "John Smith" "Engineering"] _ Hin)).
Defined.

(** ** Lookups after changes *)

Section lookups.
Context `{Builtins}.

(** X14: after [add_attachee] with a valid division, the members of that
    division are the former ones followed by the new record; the members
    of every other division are as before. *)
Theorem get_attachees_by_division_after_add
    (h : TechHub.t) (name division division' : string) :
  division ∈ TechHub.divisions h →
  TechHub.get_attachees_by_division (TechHub.add_attachee h name division).2 division'
    = TechHub.get_attachees_by_division h division'
        ++ (if decide (division' = division)
            then [Attachee.init name division] else []).
Proof.
  intros Hd. rewrite add_attachee_valid by done.
  unfold TechHub.get_attachees_by_division. simpl.
  case_bool_decide as Hd'.
  - rewrite filter_app. f_equal. rewrite filter_cons. simpl.
    destruct (decide (division = division')) as [->|Hne].
    + by rewrite decide_True.
    + rewrite decide_False; [done | by intros ->].
  - rewrite decide_False; [done | by intros ->].
Qed.

(** X15: the lookup sees the name only through [lower()]: two spellings with
    the same lowered form find the same record, or both none. *)
Theorem get_attachee_by_lowered_name (h : TechHub.t) (name name' : string) :
  str_lower name = str_lower name' →
  TechHub.get_attachee h name = TechHub.get_attachee h name'.
Proof.
  intros Hl. unfold TechHub.get_attachee.
  induction (TechHub.attachees h) as [|a l IH]; [done |].
  simpl. by rewrite Hl, IH.
Qed.

(** X16: the name of a record of the hub is always found: the lookup returns
    a record of the hub with the same lowered name. *)
Theorem get_attachee_finds_members (h : TechHub.t) (a : Attachee.t) :
  a ∈ TechHub.attachees h →
  ∃ b, TechHub.get_attachee h (Attachee.name a) = Some b
       ∧ b ∈ TechHub.attachees h
       ∧ str_lower (Attachee.name b) = str_lower (Attachee.name a).
Proof.
  intros Ha. unfold TechHub.get_attachee.
  destruct (TechHub.first_named (TechHub.attachees h) (Attachee.name a))
    as [b|] eqn:Hb.
  - exists b. apply first_named_Some in Hb as (l1 & l2 & Hl & Hn & _).
    split_and!; [done | | done].
    rewrite Hl. apply elem_of_app. right. by left.
  - destruct (proj1 (first_named_None _ _) Hb a Ha). done.
Qed.

Lemma first_named_fmap (f : Attachee.t → Attachee.t) (l : list Attachee.t)
    (name : string) :
  (∀ a, Attachee.name (f a) = Attachee.name a) →
  TechHub.first_named (f <$> l) name = f <$> TechHub.first_named l name.
Proof.
  intros Hf. induction l as [|a l IH]; [done |].
  rewrite fmap_cons. simpl. rewrite Hf, IH. by case_bool_decide.
Qed.

Lemma filter_division_fmap (f : Attachee.t → Attachee.t) (l : list Attachee.t)
    (division : string) :
  (∀ a, Attachee.division (f a) = Attachee.division a) →
  filter (λ a, Attachee.division a = division) (f <$> l)
    = f <$> filter (λ a, Attachee.division a = division) l.
Proof.
  intros Hf. induction l as [|a l IH]; [done |].
  rewrite fmap_cons, !filter_cons, Hf, IH. by case_decide.
Qed.

(** X17: a bulk assignment does not change which record a name or a division
    finds: each query after [assign_task_by_division] returns the records
    it returned before, those of the division with the task added. *)
Theorem assign_task_by_division_keeps_lookups
    (h : TechHub.t) (division task : string) :
  let h' := (TechHub.assign_task_by_division h division task).2 in
  (∀ name, TechHub.get_attachee h' name
             = bulk_assigned h division task <$> TechHub.get_attachee h name)
  ∧ (∀ division', TechHub.get_attachees_by_division h' division'
                    = bulk_assigned h division task
                        <$> TechHub.get_attachees_by_division h division').
Proof.
  cbv zeta. rewrite assign_task_by_division_state. split.
  - intros name. unfold TechHub.get_attachee. simpl.
    apply first_named_fmap. intros a. apply bulk_assigned_frame.
  - intros division'. unfold TechHub.get_attachees_by_division. simpl.
    case_bool_decide; [| done].
    apply filter_division_fmap. intros a. apply bulk_assigned_frame.
Qed.

End lookups.

Lemma get_attachees_by_division_after_add_witness :
  "Engineering" ∈ TechHub.divisions hub_john
  ∧ TechHub.get_attachees_by_division
      (TechHub.add_attachee hub_john "Maria Garcia" "Engineering").2 "Engineering"
    = TechHub.get_attachees_by_division hub_john "Engineering"
        ++ [Attachee.init "Maria Garcia" "Engineering"].
Proof.
  assert (Hd : "Engineering" ∈ TechHub.divisions hub_john) by by_compute.
  split; [exact Hd |].
  exact (get_attachees_by_division_after_add hub_john "Maria Garcia"
           "Engineering" "Engineering" Hd).
Defined.

Lemma get_attachee_by_lowered_name_witness :
  lower "JOHN smith" = lower "John Smith"
  ∧ @TechHub.get_attachee ascii_builtins hub_john "JOHN smith"
    = @TechHub.get_attachee ascii_builtins hub_john "John Smith".
Proof.
  split; [reflexivity |].
  exact (@get_attachee_by_lowered_name ascii_builtins hub_john
           "JOHN smith" "John Smith" eq_refl).
Defined.

Lemma get_attachee_finds_members_witness :
  Attachee.init "John Smith" "Engineering" ∈ TechHub.attachees hub_john
  ∧ ∃ b, @TechHub.get_attachee ascii_builtins hub_john "John Smith" = Some b
         ∧ b ∈ TechHub.attachees hub_john
         ∧ lower (Attachee.name b) = lower "John Smith".
Proof.
  assert (Hin : Attachee.init "John Smith" "Engineering" ∈ TechHub.attachees hub_john)
    by (apply list_elem_of_singleton; reflexivity).
  split; [exact Hin |].
  exact (@get_attachee_finds_members ascii_builtins hub_john _ Hin).
Defined.

(** ** The reports of the hub *)

Section reports.
Context `{Builtins}.

Lemma append_empty_r (s : string) : s +:+ EmptyString = s.
Proof.
  induction s as [|c s IH]; [done |].
  change (String c (s +:+ EmptyString) = String c s). by rewrite IH.
Qed.

Lemma summaries_Some (l : list Attachee.t) (result : string) :
  is_Some (TechHub.summaries l result) ↔ ∀ a, a ∈ l → has_entries a.
Proof.
  revert result. induction l as [|a l IH]; intros result.
  - split; [| by eexists]. intros _ a Ha. by apply elem_of_nil in Ha.
  - cbn [TechHub.summaries].
    destruct (Attachee.get_performance_summary a) as [s|] eqn:Hs.
    + rewrite IH. split.
      * intros Hl b [->|Hb]%elem_of_cons; [| by apply Hl].
        unfold Attachee.get_performance_summary in Hs.
        intros task Hin. case_bool_decide as Ht.
        -- rewrite Ht in Hin. by apply elem_of_nil in Hin.
        -- by apply (proj1 (summary_of_tasks_Some a _ _) (mk_is_Some _ _ Hs)).
      * intros Hl b Hb. apply Hl. by right.
    + split; [by intros [? ?] |]. intros Hl.
      destruct (get_performance_summary_total a) as [? Hs']; [| congruence].
      apply Hl. by left.
Qed.

Lemma summaries_blocks (l : list Attachee.t) (result s : string) :
  TechHub.summaries l result = Some s →
  (∃ rest, s = result +:+ rest)
  ∧ ∀ a, a ∈ l →
      ∃ sa, Attachee.get_performance_summary a = Some sa ∧ contains sa s = true.
Proof.
  revert result. induction l as [|a l IH]; intros result.
  - intros [= <-]. split.
    + exists EmptyString. by rewrite append_empty_r.
    + intros a Ha. by apply elem_of_nil in Ha.
  - cbn [TechHub.summaries].
    destruct (Attachee.get_performance_summary a) as [sa|] eqn:Hs; [| done].
    intros Hr. destruct (IH _ Hr) as [[rest ->] Hl]. split.
    + exists (sa +:+ rest). by rewrite append_assoc.
    + intros b [->|Hb]%elem_of_cons; [| by apply Hl].
      exists sa. split; [done |].
      rewrite append_assoc. apply contains_app_r, contains_here.
Qed.

Lemma display_defined_iff (h : TechHub.t) (division : string) :
  is_Some (TechHub.display_division_performance h division) ↔
  ∀ a, a ∈ TechHub.get_attachees_by_division h division → has_entries a.
Proof.
  unfold TechHub.display_division_performance.
  case_bool_decide as Hd.
  - case_bool_decide as Hl.
    + apply summaries_Some.
    + split; [| by eexists]. intros _ a Ha.
      destruct (decide (TechHub.get_attachees_by_division h division = []))
        as [Hnil|]; [| done].
      rewrite Hnil in Ha. by apply elem_of_nil in Ha.
  - split; [| by eexists]. intros _ a Ha.
    unfold TechHub.get_attachees_by_division in Ha.
    rewrite bool_decide_eq_false_2 in Ha by done. by apply elem_of_nil in Ha.
Qed.

(** X18: [display_division_performance] returns a text exactly when every
    record of the division has the entries of its tasks; a record that
    lacks one makes the whole report stop on its [KeyError].  An invalid
    or empty division has no such record and always gets its message. *)
Theorem display_division_performance_defined (h : TechHub.t) (division : string) :
  is_Some (TechHub.display_division_performance h division) ↔
  ∀ a, a ∈ TechHub.get_attachees_by_division h division → has_entries a.
Proof. apply display_defined_iff. Qed.

(** X19: whatever calls were made on a hub, the division report does not fail. *)
Theorem reachable_display_division_performance
    (ops : list TechHub.op) (division : string) :
  is_Some (TechHub.display_division_performance
             (foldl TechHub.exec TechHub.init ops) division).
Proof.
  apply display_defined_iff. intros a Ha.
  destruct (hub_ok_reachable ops) as [_ Hall]. apply Hall.
  unfold TechHub.get_attachees_by_division in Ha.
  case_bool_decide; [| by apply elem_of_nil in Ha].
  by apply list_elem_of_filter in Ha as [_ Ha].
Qed.

(** X20: the report of a valid division with members carries the division's
    heading and, for each member, the whole text of its performance
    summary. *)
Theorem display_division_performance_contents
    (h : TechHub.t) (division s : string) :
  division ∈ TechHub.divisions h →
  TechHub.get_attachees_by_division h division ≠ [] →
  TechHub.display_division_performance h division = Some s →
  contains ("=== " +:+ division +:+ " Division Performance ===") s = true
  ∧ ∀ a, a ∈ TechHub.get_attachees_by_division h division →
      ∃ sa, Attachee.get_performance_summary a = Some sa ∧ contains sa s = true.
Proof.
  intros Hd Hl. unfold TechHub.display_division_performance.
  rewrite !bool_decide_eq_true_2 by done.
  intros [[rest ->] Hall]%summaries_blocks. split; [| done].
  apply contains_spec. exists nl, (nl +:+ rest). by rewrite !append_assoc.
Qed.

End reports.

Lemma display_division_performance_contents_witness :
  "Engineering" ∈ TechHub.divisions hub_john
  ∧ TechHub.get_attachees_by_division hub_john "Engineering" ≠ []
  ∧ ∃ s, @TechHub.display_division_performance ascii_builtins hub_john "Engineering"
           = Some s
         ∧ contains "=== Engineering Division Performance ===" s = true.
Proof.
  assert (Hd : "Engineering" ∈ TechHub.divisions hub_john) by by_compute.
  assert (Hl : TechHub.get_attachees_by_division hub_john "Engineering" ≠ [])
    by by_compute.
  split_and!; [exact Hd | exact Hl |].
  destruct (@TechHub.display_division_performance ascii_builtins hub_john "Engineering")
    as [s|] eqn:Hs; [| by vm_compute in Hs].
  exists s. split; [done |].
  exact (proj1 (@display_division_performance_contents ascii_builtins
                  hub_john "Engineering" s Hd Hl Hs)).
Defined.

(** ** The listing of all attachees *)

Section listing.
Context `{Builtins}.

Lemma numbered_lines_spec (l : list Attachee.t) (i : nat) (result : string) :
  (∃ rest, TechHub.numbered_lines l i result = result +:+ rest)
  ∧ ∀ k a, l !! k = Some a →
      contains ("  " +:+ pretty (i + k) +:+ ". " +:+ Attachee.name a
                  +:+ " - Avg Score: " +:+ format_1f (Attachee.average_score a)
                  +:+ "/10" +:+ nl)
               (TechHub.numbered_lines l i result) = true.
Proof.
  revert i result. induction l as [|a l IH]; intros i result.
  - split; [exists EmptyString; by rewrite append_empty_r |]. by intros k a.
  - cbn [TechHub.numbered_lines].
    destruct (IH (S i)
                (result +:+ "  " +:+ pretty i +:+ ". " +:+ Attachee.name a
                   +:+ " - Avg Score: " +:+ format_1f (Attachee.average_score a)
                   +:+ "/10" +:+ nl)) as [[rest Hrest] Hlines].
    split.
    + rewrite Hrest. eexists. by rewrite !append_assoc.
    + intros [|k] b Hk.
      * injection Hk as <-. rewrite Hrest, Nat.add_0_r.
        apply contains_spec. exists result, rest. by rewrite !append_assoc.
      * rewrite Nat.add_succ_r. by apply (Hlines k b).
Qed.

Lemma division_sections_spec (h : TechHub.t) (l : list string) (result : string) :
  (∃ rest, TechHub.division_sections h l result = result +:+ rest)
  ∧ ∀ division, division ∈ l →
      contains (nl +:+ division +:+ " Division:" +:+ nl)
               (TechHub.division_sections h l result) = true
      ∧ (TechHub.get_attachees_by_division h division = [] →
         contains (nl +:+ division +:+ " Division:" +:+ nl
                     +:+ "  No attachees in this division." +:+ nl)
                  (TechHub.division_sections h l result) = true)
      ∧ ∀ k a, TechHub.get_attachees_by_division h division !! k = Some a →
          contains ("  " +:+ pretty (S k) +:+ ". " +:+ Attachee.name a
                      +:+ " - Avg Score: " +:+ format_1f (Attachee.average_score a)
                      +:+ "/10" +:+ nl)
                   (TechHub.division_sections h l result) = true.
Proof.
  revert result. induction l as [|d l IH]; intros result.
  - split; [exists EmptyString; by rewrite append_empty_r |].
    intros division Hin. by apply elem_of_nil in Hin.
  - cbn [TechHub.division_sections]. cbv zeta.
    set (heading := result +:+ nl +:+ d +:+ " Division:" +:+ nl).
    set (section := if bool_decide (TechHub.get_attachees_by_division h d ≠ [])
                    then TechHub.numbered_lines
                           (TechHub.get_attachees_by_division h d) 1 heading
                    else heading +:+ "  No attachees in this division." +:+ nl).
    destruct (IH section) as [[rest Hrest] Hl].
    assert (Hsec : ∃ body, section = heading +:+ body).
    { unfold section. case_bool_decide; [| by eexists].
      apply numbered_lines_spec. }
    destruct Hsec as [body Hbody]. split.
    + rewrite Hrest, Hbody. unfold heading. eexists. by rewrite !append_assoc.
    + intros division [->|Hin]%elem_of_cons; [| by apply Hl].
      rewrite Hrest. split_and!.
      * rewrite Hbody. unfold heading. apply contains_spec.
        exists result, (body +:+ rest). by rewrite !append_assoc.
      * intros Hnil. unfold section.
        rewrite bool_decide_eq_false_2 by (by intros ?).
        unfold heading. apply contains_spec. exists result, rest.
        by rewrite !append_assoc.
      * intros k a Hk. apply contains_app_l. unfold section.
        rewrite bool_decide_eq_true_2 by (intros Hnil; by rewrite Hnil in Hk).
        by apply (proj2 (numbered_lines_spec _ 1 heading) k a).
Qed.

(** X21: the listing has a section for every division of [divisions], with or
    without members: its heading is there, followed for a division
    without members by the line that says so. *)
Theorem display_all_attachees_sections (h : TechHub.t) (division : string) :
  division ∈ TechHub.divisions h →
  contains (nl +:+ division +:+ " Division:" +:+ nl)
           (TechHub.display_all_attachees h) = true
  ∧ (TechHub.get_attachees_by_division h division = [] →
     contains (nl +:+ division +:+ " Division:" +:+ nl
                 +:+ "  No attachees in this division." +:+ nl)
              (TechHub.display_all_attachees h) = true).
Proof.
  intros Hd. unfold TechHub.display_all_attachees. cbv zeta.
  destruct (division_sections_spec h (TechHub.divisions h)
              (nl +:+ "=== All Attachees by Division ===" +:+ nl))
    as [_ Hl].
  destruct (Hl division Hd) as (Hhead & Hnone & _). by split.
Qed.


End listing.

Lemma display_all_attachees_sections_witness :
  "Radio Support" ∈ TechHub.divisions hub_john
  ∧ TechHub.get_attachees_by_division hub_john "Radio Support" = []
  ∧ contains (nl +:+ "Radio Support Division:" +:+ nl
                +:+ "  No attachees in this division." +:+ nl)
             (@TechHub.display_all_attachees ascii_builtins hub_john) = true.
Proof.
  assert (Hd : "Radio Support" ∈ TechHub.divisions hub_john) by by_compute.
  split_and!; [exact Hd | reflexivity |].
  exact (proj2 (@display_all_attachees_sections ascii_builtins hub_john
                  "Radio Support" Hd) eq_refl).
Defined.


(** ** What the calls on a record never do *)

Section never.
Context `{Builtins}.

Lemma exec_tasks (a : Attachee.t) (o : Attachee.op) :
  Attachee.tasks (Attachee.exec a o)
    = Attachee.tasks a
        ++ match o with Attachee.AssignTask task => [task] | _ => [] end.
Proof.
  destruct o as [task|task fb|task score|]; cbn [Attachee.exec];
    rewrite ?app_nil_r.
  - done.
  - unfold Attachee.add_feedback. by case_bool_decide.
  - unfold Attachee.add_score. case_bool_decide; [| done].
    destruct (in_range score); [| done]. cbn [snd].
    by destruct (update_average_score_fields
                   (Attachee.set_scores a (<[task := score]> (Attachee.scores a))))
      as (_ & _ & -> & _).
  - done.
Qed.

(** X7: no sequence of calls removes or reorders a task: the task list before
    is a prefix of the task list after, and what follows it are the tasks
    of the [assign_task] calls, duplicates included, in call order. *)
Theorem tasks_only_grow (a : Attachee.t) (ops : list Attachee.op) :
  Attachee.tasks (foldl Attachee.exec a ops)
    = Attachee.tasks a
        ++ omap (λ o, match o with Attachee.AssignTask task => Some task | _ => None end)
             ops.
Proof.
  induction ops as [|o ops IH] using rev_ind.
  - simpl. by rewrite app_nil_r.
  - rewrite foldl_app, omap_app. cbn [foldl].
    rewrite exec_tasks, IH, <- app_assoc. by destruct o.
Qed.

(** X8: only an accepted score changes the average: a call after which
    [average_score] differs is an [add_score] for an assigned task with a
    score between 0 and 10. *)
Theorem average_changes_only_on_accepted_score (a : Attachee.t) (o : Attachee.op) :
  Attachee.average_score (Attachee.exec a o) ≠ Attachee.average_score a →
  ∃ task score, o = Attachee.AddScore task score
                ∧ task ∈ Attachee.tasks a
                ∧ (0 <= score ∧ score <= 10)%Q.
Proof.
  destruct o as [task|task fb|task score|]; cbn [Attachee.exec]; intros Hne.
  - by destruct Hne.
  - destruct Hne. unfold Attachee.add_feedback. by case_bool_decide.
  - exists task, score. split; [done |].
    destruct (decide (task ∈ Attachee.tasks a)) as [Hin|Hn].
    + split; [done |]. apply in_range_spec.
      destruct (in_range score) eqn:Hr; [done |].
      destruct Hne. by rewrite add_score_rejected.
    + destruct Hne. by rewrite add_score_unassigned.
  - by destruct Hne.
Qed.

End never.

Lemma average_changes_only_on_accepted_score_witness :
  Attachee.average_score
    (@Attachee.exec ascii_builtins john (Attachee.AddScore "Fix bug" 8))
    ≠ Attachee.average_score john
  ∧ ∃ task score, Attachee.AddScore "Fix bug" 8 = Attachee.AddScore task score
                  ∧ task ∈ Attachee.tasks john
                  ∧ (0 <= score ∧ score <= 10)%Q.
Proof.
  assert (Hne : Attachee.average_score
                  (@Attachee.exec ascii_builtins john (Attachee.AddScore "Fix bug" 8))
                ≠ Attachee.average_score john) by (by vm_compute).
  split; [exact Hne |].
  exact (@average_changes_only_on_accepted_score ascii_builtins john
           (Attachee.AddScore "Fix bug" 8) Hne).
Defined.
